(** * geneticPlayground: the genetic-algorithm engine, embedded in Rocq

    The development follows [src/scripts/genetic_functions.js] (the version
    whose functions take the [ascending] flag) and the two evolution loops
    of the repository: [src/scripts/genetic.js] and the default-exported
    [geneticAlgorithm] that takes an options object.  The earlier draft of
    the table and of the sampler, kept in the same file, is embedded too and
    compared with the current functions.

    Conventions of the embedding.
    - JavaScript numbers are binary64 floating-point numbers.  The functions
      of genetic_functions.js are embedded twice.  Module [Double] computes
      on binary64 numbers (Rocq's primitive floats), operation by operation
      as the source does; it decides what the table of
      [relativeCumulativeFitness] holds and what the sampler returns.  The
      functions outside that module read a fitness as an exact rational
      ([Q]): they agree with the code wherever only comparisons of the given
      numbers are made, and their arithmetic is the code's arithmetic
      without rounding and without overflow.  A property that rests on that
      arithmetic says so: it is stated "in exact arithmetic".
    - The two rates the loops multiply with are binary64 numbers, and
      [Math.floor(population.length * rate)] is computed on them.
    - [Math.random] reads the next value of an explicit queue of draws; a
      run that asks for a draw when the queue is empty is [Starved], which
      says nothing on what the program returns with more draws.
    - A thrown exception is the outcome [Throw]; an array slot that holds
      [undefined] is [None].
    - Sizes, counts and indices are integers ([Z]).
    - The callbacks of a model are computations: they may draw and throw.
      They do not change the arrays they are handed. *)

From Stdlib Require Import PrimFloat FloatOps SpecFloat Uint63.
From Stdlib Require Import String Bool ZArith QArith Qabs Qminmax Lqa Lia List Permutation.
Import ListNotations.

#[local] Set Warnings "-inexact-float".

Local Open Scope Q_scope.

(** ** JavaScript values the engine relies on *)

Module JS.

(** Exceptions: [new Error(message)] and the engine-raised [TypeError] of a
    property read on [undefined]. *)
Inductive error : Type :=
| Error (message : string)
| TypeError (message : string).

(** Result of running a piece of code. *)
Inductive outcome (A : Type) : Type :=
| Ok (a : A)
| Throw (e : error)
| Starved.

Arguments Ok {A} a.
Arguments Throw {A} e.
Arguments Starved {A}.

(** The values [Math.max] and [Math.min] can return: a finite number, or
    the infinity they give when called with no argument. *)
Inductive number : Type :=
| NegInfinity
| Num (q : Q)
| PosInfinity.

Definition Qlt_bool (x y : Q) : bool := negb (Qle_bool y x).

(** One argument more for [Math.max] or [Math.min]: [v] replaces the
    running result [m] when [better m v]. *)
Definition extremum_step (better : Q -> Q -> bool) (acc : number) (v : Q) : number :=
  match acc with
  | Num m => Num (if better m v then v else m)
  | _ => Num v
  end.

(** [Math.max(...values)] *)
Definition Math_max (values : list Q) : number :=
  fold_left (extremum_step (fun m v => Qlt_bool m v)) values NegInfinity.

(** [Math.min(...values)] *)
Definition Math_min (values : list Q) : number :=
  fold_left (extremum_step (fun m v => Qlt_bool v m)) values PosInfinity.

(** [x === v] for an array element [v] and the result [x] of
    [Math.max]/[Math.min]. *)
Definition strict_equal (v : Q) (x : number) : bool :=
  match x with
  | Num q => Qeq_bool v q
  | _ => false
  end.

(** [array.findIndex(p)]: the first index whose element satisfies [p],
    [-1] when there is none. *)
Fixpoint findIndex_from {A : Type} (p : A -> bool) (array : list A) (i : Z) : Z :=
  match array with
  | [] => (-1)%Z
  | x :: rest => if p x then i else findIndex_from p rest (i + 1)%Z
  end.

Definition findIndex {A : Type} (p : A -> bool) (array : list A) : Z :=
  findIndex_from p array 0%Z.

(** [array.indexOf(x)] on an array of numbers. *)
Definition indexOf (array : list Q) (x : number) : Z :=
  findIndex (fun v => strict_equal v x) array.

(** [array.includes(i)] on an array of indices. *)
Definition includes (array : list Z) (i : Z) : bool :=
  existsb (Z.eqb i) array.

(** [array[i]]: [undefined] ([None]) outside [0 .. length - 1]. *)
Definition get {A : Type} (array : list A) (i : Z) : option A :=
  if (i <? 0)%Z then None else nth_error array (Z.to_nat i).

(** [x || 0] for [x] a number or [undefined]: [0] is falsy. *)
Definition or_zero (x : option Q) : Q :=
  match x with
  | Some v => if Qeq_bool v 0 then 0 else v
  | None => 0
  end.

(** [array.reduce((acc, x, index) => f(acc, x, index), init)] *)
Fixpoint reduce_from {A B : Type} (f : B -> A -> Z -> B) (array : list A)
         (index : Z) (acc : B) : B :=
  match array with
  | [] => acc
  | x :: rest => reduce_from f rest (index + 1)%Z (f acc x index)
  end.

Definition reduce {A B : Type} (f : B -> A -> Z -> B) (array : list A) (init : B) : B :=
  reduce_from f array 0%Z init.

(** Truthiness of an optional boolean argument: an omitted argument is
    [undefined], which is falsy. *)
Definition truthy (flag : option bool) : bool :=
  match flag with
  | Some b => b
  | None => false
  end.

End JS.

Import JS.

(** ** Binary64 numbers *)

Module Binary64.

Local Open Scope float_scope.

(** [array.length] as a number; the length of an array is below 2^32. *)
Definition of_nat (n : nat) : float := of_uint63 (Uint63.of_Z (Z.of_nat n)).

(** The number [(-1)^s * m * 2^e] rounded down to a whole number:
    [Z.shiftl] by a negative [e] divides by [2^(-e)] and rounds down. *)
Definition whole_part (s : bool) (m : positive) (e : Z) : Z :=
  Z.shiftl (if s then Z.neg m else Z.pos m) e.

(** [Math.floor(x)]: [x] itself when it is a whole number, a zero, [NaN] or
    an infinity.  A number with digits behind the binary point lies
    between -2^53 and 2^53, where every whole number is a binary64
    number. *)
Definition Math_floor (x : float) : float :=
  match Prim2SF x with
  | S754_finite s m e =>
      if (e <? 0)%Z then
        let z := whole_part s m e in
        if (z <? 0)%Z then - of_uint63 (Uint63.of_Z (- z))
        else of_uint63 (Uint63.of_Z z)
      else x
  | _ => x
  end.

(** The integer a number [n] stands for where the functions take it as a
    sample size or as a number of children.  They compare [n] with array
    lengths and loop counters only: [n > population.length], [n < 0],
    [n > weights.length], [indices.length < n] and [i < n].  A whole
    number is itself.  Every comparison with [NaN] is false: [NaN] passes
    the guards and bounds no iteration, as 0 does.  An infinity lies
    beyond every length and every counter: it is read as 2^1024 with its
    sign, a power of two beyond every binary64 number (a loop that counts
    up to it outlasts every queue of draws). *)
Definition as_count (x : float) : Z :=
  match Prim2SF x with
  | S754_zero _ => 0
  | S754_finite s m e => whole_part s m e
  | S754_nan => 0
  | S754_infinity s => if s then - 2 ^ 1024 else 2 ^ 1024
  end.

(** One argument more for [Math.min]: [NaN] if any argument is [NaN], and
    [-0] is smaller than [+0]. *)
Definition min_step (acc v : float) : float :=
  if is_nan acc || is_nan v then nan
  else if v <? acc then v
  else if (v =? acc) && get_sign v then v
  else acc.

(** [Math.min(...values)] *)
Definition Math_min (values : list float) : float :=
  fold_left min_step values infinity.

(** [x || 0] for [x] a number or [undefined]: [0], [-0] and [NaN] are
    falsy. *)
Definition or_zero (x : option float) : float :=
  match x with
  | Some v => if (v =? 0) || is_nan v then 0 else v
  | None => 0
  end.

(** What [Math.random] promises of a draw: a number in [0, 1). *)
Definition unit_draw (random_number : float) : bool :=
  (0 <=? random_number) && (random_number <? 1).

End Binary64.

(** ** Running code: exceptions and the queue of random draws *)

Module Run.

(** The values [Math.random] will return, in order. *)
Definition draws : Type := list Q.

(** A computation reads draws and ends in an [outcome]. *)
Definition M (A : Type) : Type := draws -> outcome (A * draws).

Definition ret {A : Type} (a : A) : M A := fun queue => Ok (a, queue).

Definition bind {A B : Type} (m : M A) (k : A -> M B) : M B :=
  fun queue =>
    match m queue with
    | Ok (a, queue') => k a queue'
    | Throw e => Throw e
    | Starved => Starved
    end.

Definition throw {A : Type} (e : error) : M A := fun _ => Throw e.

(** A computation that does not draw. *)
Definition lift {A : Type} (o : outcome A) : M A :=
  fun queue =>
    match o with
    | Ok a => Ok (a, queue)
    | Throw e => Throw e
    | Starved => Starved
    end.

(** [Math.random()] *)
Definition Math_random : M Q :=
  fun queue =>
    match queue with
    | [] => Starved
    | random_number :: queue' => Ok (random_number, queue')
    end.

(** [array.map(f)] for an effectful [f], applied in array order. *)
Fixpoint mapM {A B : Type} (f : A -> M B) (array : list A) : M (list B) :=
  match array with
  | [] => ret []
  | x :: rest =>
      bind (f x) (fun y => bind (mapM f rest) (fun ys => ret (y :: ys)))
  end.

(** [array.map(f)] for an [f] that can only throw. *)
Fixpoint map_outcome {A B : Type} (f : A -> outcome B) (array : list A) : outcome (list B) :=
  match array with
  | [] => Ok []
  | x :: rest =>
      match f x with
      | Ok y =>
          match map_outcome f rest with
          | Ok ys => Ok (y :: ys)
          | Throw e => Throw e
          | Starved => Starved
          end
      | Throw e => Throw e
      | Starved => Starved
      end
  end.

End Run.

Import Run.

Notation "x <- m ;; k" := (bind m (fun x => k))
  (at level 61, m at next level, right associativity).
Notation "m ;;; k" := (bind m (fun _ => k))
  (at level 61, right associativity).

(** ** src/scripts/genetic_functions.js *)

Section GeneticFunctions.

(** The caller-defined shape of an individual. *)
Context {T : Type}.

(** An evaluated individual: [{...individual, fitness}]. *)
Record individual : Type := { props : T; fitness : Q }.

(** An array slot holds an evaluated individual or [undefined]. *)
Definition member : Type := option individual.
Definition population : Type := list member.

(** An evaluated population: every slot holds an individual. *)
Definition evaluated (pop : list individual) : population := map Some pop.

(** [population[index]] *)
Definition at_index (array : population) (index : Z) : member :=
  match get array index with
  | Some slot => slot
  | None => None
  end.

(** [individual.fitness], a [TypeError] on [undefined]. *)
Definition read_fitness (slot : member) : outcome Q :=
  match slot with
  | Some i => Ok (fitness i)
  | None => Throw (TypeError "Cannot read properties of undefined (reading 'fitness')")
  end.

(** [Array.from({ length: n }, () => creation_function())] *)
Definition randomPopulation (n : Z) (creation_function : M T) : M (list T) :=
  mapM (fun _ => creation_function) (repeat tt (Z.to_nat n)).

(** [population.map(individual => ({ ...individual, fitness:
    fitness_function(individual, target_value) }))] *)
Definition evaluateFitness {Target : Type} (pop : list T)
           (fitness_function : T -> Target -> M Q) (target_value : Target)
  : M (list individual) :=
  mapM (fun i => f <- fitness_function i target_value ;;
                 ret {| props := i; fitness := f |}) pop.

(** [population.map(individual => mutation_function(individual,
    mutation_rate))] *)
Definition mutate {A B : Type} (pop : list A) (mutation_function : A -> Q -> M B)
           (mutation_rate : Q) : M (list B) :=
  mapM (fun i => mutation_function i mutation_rate) pop.

(** [fitness.indexOf(Math.max(...fitness))] when [ascending] is truthy,
    [fitness.indexOf(Math.min(...fitness))] otherwise; the result is
    [population[index]]. *)
Definition fittestIndividual (pop : population) (ascending : option bool)
  : outcome member :=
  match map_outcome read_fitness pop with
  | Ok fitness =>
      let index :=
        if truthy ascending
        then indexOf fitness (Math_max fitness)
        else indexOf fitness (Math_min fitness) in
      Ok (at_index pop index)
  | Throw e => Throw e
  | Starved => Starved
  end.

(** The numeric steps of [relativeCumulativeFitness], in the order of the
    source, on the array of fitness values, in exact arithmetic; module
    [Double] below has the same steps in binary64. *)

(** "if any value is negative, add absolute value of min to all values" *)
Definition shift_negative (fitness : list Q) : list Q :=
  if existsb (fun value => Qlt_bool value 0) fitness then
    match Math_min fitness with
    | Num min => map (fun value => value + Qabs min) fitness
    | _ => fitness (* not reached: a negative value makes the array non-empty *)
    end
  else fitness.

(** "if any values are 0, add 1 to all values" *)
Definition lift_zero (fitness : list Q) : list Q :=
  if existsb (fun value => Qeq_bool value 0) fitness
  then map (fun value => value + 1) fitness
  else fitness.

(** "if ascending is false, use 1 / fitness to invert the values" *)
Definition invert (ascending : option bool) (fitness : list Q) : list Q :=
  if negb (truthy ascending)
  then map (fun value => 1 / value) fitness
  else fitness.

(** [fitness.reduce((total, individual) => total + individual, 0)] *)
Definition total (fitness : list Q) : Q :=
  fold_left (fun total i => total + i) fitness 0.

(** "normalize the values": [individual / total_fitness] *)
Definition normalize (fitness : list Q) : list Q :=
  let total_fitness := total fitness in
  map (fun i => i / total_fitness) fitness.

(** "return the cumulative sum of the relative fitness values":
    [[...cumulative, individual + (cumulative[index - 1] || 0)]] *)
Definition cumulative_sum (relative_fitness : list Q) : list Q :=
  reduce (fun cumulative i index =>
            cumulative ++ [i + or_zero (get cumulative (index - 1))])
         relative_fitness [].

(** The table computed from the fitness values. *)
Definition weights_of (fitness : list Q) (ascending : option bool) : list Q :=
  cumulative_sum (normalize (invert ascending (lift_zero (shift_negative fitness)))).

Definition relativeCumulativeFitness (pop : population) (ascending : option bool)
  : outcome (list Q) :=
  match map_outcome read_fitness pop with
  | Ok fitness => Ok (weights_of fitness ascending)
  | Throw e => Throw e
  | Starved => Starved
  end.

(** The [while] loop of [randomUniqueIndices].  Each iteration takes the
    next draw, which is [Math.random()] (lemma
    [randomUniqueIndices_loop_draws]), so the loop recurses on the queue. *)
Fixpoint randomUniqueIndices_loop (weights : list Q) (n : Z) (indices : list Z)
         (queue : draws) {struct queue} : outcome (list Z * draws) :=
  if (Z.of_nat (length indices) <? n)%Z then
    match queue with
    | [] => Starved
    | random_number :: queue' =>
        let index := findIndex (fun f => Qlt_bool random_number f) weights in
        randomUniqueIndices_loop weights n
          (if negb (includes indices index) then indices ++ [index] else indices)
          queue'
    end
  else Ok (indices, queue).

(** The guard on [n], then the loop from [indices = []]. *)
Definition randomUniqueIndices (weights : list Q) (n : Z) : M (list Z) :=
  if ((n <? 0) || (n >? Z.of_nat (length weights)))%Z
  then throw (Error "n must be between 0 and the population size")
  else randomUniqueIndices_loop weights n [].

(** The guard on [n], the table, the indices, then
    [indices.map(index => population[index])]. *)
Definition weightedSampleWithoutReplacement (pop : population) (n : Z)
           (ascending : option bool) : M population :=
  if (n >? Z.of_nat (length pop))%Z
  then throw (Error "n must be less than or equal to the population size")
  else
    weights <- lift (relativeCumulativeFitness pop ascending) ;;
    indices <- randomUniqueIndices weights n ;;
    ret (map (fun index => at_index pop index) indices).

(** The [for] loop of [crossover]: [count] iterations left. *)
Fixpoint crossover_loop (pop : population) (count : nat)
         (crossover_function : member -> member -> M T)
         (ascending : option bool) (new_population : list T) : M (list T) :=
  match count with
  | O => ret new_population
  | S count' =>
      sample <- weightedSampleWithoutReplacement pop 2 ascending ;;
      child <- crossover_function (at_index sample 0) (at_index sample 1) ;;
      crossover_loop pop count' crossover_function ascending (new_population ++ [child])
  end.

(** The guard on the size of the mating pool, then the loop. *)
Definition crossover (pop : population) (n : Z)
           (crossover_function : member -> member -> M T)
           (ascending : option bool) : M (list T) :=
  if (Z.of_nat (length pop) <? 2)%Z
  then throw (Error "population size must be greater than 1")
  else crossover_loop pop (Z.to_nat n) crossover_function ascending [].

End GeneticFunctions.

Arguments individual : clear implicits.
Arguments member : clear implicits.
Arguments population : clear implicits.

(** ** src/scripts/genetic_functions.js on binary64 numbers

    The table, the sampler and [crossover] once more, line by line as
    above, with the fitness values, the table and the draws as binary64
    numbers and the arithmetic of the source done in binary64. *)

Module Double.

Local Open Scope float_scope.

(** The values [Math.random] will return, in order. *)
Definition draws : Type := list float.

Definition M (A : Type) : Type := draws -> outcome (A * draws).

Definition ret {A : Type} (a : A) : M A := fun queue => Ok (a, queue).

Definition bind {A B : Type} (m : M A) (k : A -> M B) : M B :=
  fun queue =>
    match m queue with
    | Ok (a, queue') => k a queue'
    | Throw e => Throw e
    | Starved => Starved
    end.

Definition throw {A : Type} (e : error) : M A := fun _ => Throw e.

Definition lift {A : Type} (o : outcome A) : M A :=
  fun queue =>
    match o with
    | Ok a => Ok (a, queue)
    | Throw e => Throw e
    | Starved => Starved
    end.

(** [Math.random()] *)
Definition Math_random : M float :=
  fun queue =>
    match queue with
    | [] => Starved
    | random_number :: queue' => Ok (random_number, queue')
    end.

#[local] Set Warnings "-notation-overridden".

Local Notation "x <- m ;; k" := (bind m (fun x => k))
  (at level 61, m at next level, right associativity).

Section Functions.

Context {T : Type}.

(** An evaluated individual: [{...individual, fitness}]. *)
Record individual : Type := { props : T; fitness : float }.

Definition member : Type := option individual.
Definition population : Type := list member.

Definition evaluated (pop : list individual) : population := map Some pop.

(** [population[index]] *)
Definition at_index (array : population) (index : Z) : member :=
  match get array index with
  | Some slot => slot
  | None => None
  end.

(** [individual.fitness], a [TypeError] on [undefined]. *)
Definition read_fitness (slot : member) : outcome float :=
  match slot with
  | Some i => Ok (fitness i)
  | None => Throw (TypeError "Cannot read properties of undefined (reading 'fitness')")
  end.

(** "if any value is negative, add absolute value of min to all values" *)
Definition shift_negative (fitness : list float) : list float :=
  if existsb (fun value => value <? 0) fitness then
    let min := Binary64.Math_min fitness in
    map (fun value => value + abs min) fitness
  else fitness.

(** "if any values are 0, add 1 to all values" *)
Definition lift_zero (fitness : list float) : list float :=
  if existsb (fun value => value =? 0) fitness
  then map (fun value => value + 1) fitness
  else fitness.

(** "if ascending is false, use 1 / fitness to invert the values" *)
Definition invert (ascending : option bool) (fitness : list float) : list float :=
  if negb (truthy ascending)
  then map (fun value => 1 / value) fitness
  else fitness.

(** [fitness.reduce((total, individual) => total + individual, 0)] *)
Definition total (fitness : list float) : float :=
  fold_left (fun total i => total + i) fitness 0.

(** "normalize the values": [individual / total_fitness] *)
Definition normalize (fitness : list float) : list float :=
  let total_fitness := total fitness in
  map (fun i => i / total_fitness) fitness.

(** "return the cumulative sum of the relative fitness values":
    [[...cumulative, individual + (cumulative[index - 1] || 0)]] *)
Definition cumulative_sum (relative_fitness : list float) : list float :=
  reduce (fun cumulative i index =>
            cumulative ++ [i + Binary64.or_zero (get cumulative (index - 1))])
         relative_fitness [].

(** The table computed from the fitness values. *)
Definition weights_of (fitness : list float) (ascending : option bool) : list float :=
  cumulative_sum (normalize (invert ascending (lift_zero (shift_negative fitness)))).

Definition relativeCumulativeFitness (pop : population) (ascending : option bool)
  : outcome (list float) :=
  match map_outcome read_fitness pop with
  | Ok fitness => Ok (weights_of fitness ascending)
  | Throw e => Throw e
  | Starved => Starved
  end.

(** [weights.findIndex((f) => f > random_number)]: the index a draw
    selects in a table, [-1] when no entry exceeds the draw. *)
Definition selected (weights : list float) (random_number : float) : Z :=
  findIndex (fun f => random_number <? f) weights.

(** The [while] loop of [randomUniqueIndices]; each iteration takes the
    next draw, which is [Math.random()] (lemma [double_loop_draws]), so the
    loop recurses on the queue. *)
Fixpoint randomUniqueIndices_loop (weights : list float) (n : Z) (indices : list Z)
         (queue : draws) {struct queue} : outcome (list Z * draws) :=
  if (Z.of_nat (length indices) <? n)%Z then
    match queue with
    | [] => Starved
    | random_number :: queue' =>
        let index := selected weights random_number in
        randomUniqueIndices_loop weights n
          (if negb (includes indices index) then indices ++ [index] else indices)
          queue'
    end
  else Ok (indices, queue).

Definition randomUniqueIndices (weights : list float) (n : Z) : M (list Z) :=
  if ((n <? 0) || (n >? Z.of_nat (length weights)))%Z
  then throw (Error "n must be between 0 and the population size")
  else randomUniqueIndices_loop weights n [].

Definition weightedSampleWithoutReplacement (pop : population) (n : Z)
           (ascending : option bool) : M population :=
  if (n >? Z.of_nat (length pop))%Z
  then throw (Error "n must be less than or equal to the population size")
  else
    weights <- lift (relativeCumulativeFitness pop ascending) ;;
    indices <- randomUniqueIndices weights n ;;
    ret (map (fun index => at_index pop index) indices).

Fixpoint crossover_loop (pop : population) (count : nat)
         (crossover_function : member -> member -> M T)
         (ascending : option bool) (new_population : list T) : M (list T) :=
  match count with
  | O => ret new_population
  | S count' =>
      sample <- weightedSampleWithoutReplacement pop 2 ascending ;;
      child <- crossover_function (at_index sample 0) (at_index sample 1) ;;
      crossover_loop pop count' crossover_function ascending (new_population ++ [child])
  end.

Definition crossover (pop : population) (n : Z)
           (crossover_function : member -> member -> M T)
           (ascending : option bool) : M (list T) :=
  if (Z.of_nat (length pop) <? 2)%Z
  then throw (Error "population size must be greater than 1")
  else crossover_loop pop (Z.to_nat n) crossover_function ascending [].

End Functions.

Arguments individual : clear implicits.
Arguments member : clear implicits.
Arguments population : clear implicits.

End Double.

(** ** The evolution loops *)

(** What [geneticAlgorithm] hands back to its caller: [undefined] when the
    function body ends without a [return], or the object
    [{ history, fittest }]. *)
Inductive returned (T : Type) : Type :=
| undefined
| record (history : list (list (individual T))) (fittest : member T).

Arguments undefined {T}.
Arguments record {T} history fittest.

(** How the [for] loop over the generations ends: by [break], the variable
    [population] holding the evaluated population, or by the generation
    counter reaching [generations], [population] holding the offspring that
    were never evaluated. *)
Inductive loop_exit (T : Type) : Type :=
| Stopped (history : list (list (individual T))) (pop : list (individual T))
| Exhausted (history : list (list (individual T))) (pop : list T).

Arguments Stopped {T} history pop.
Arguments Exhausted {T} history pop.

Definition history_of {T : Type} (e : loop_exit T) : list (list (individual T)) :=
  match e with
  | Stopped history _ => history
  | Exhausted history _ => history
  end.

(** [Math.floor(population.length * rate)], computed in binary64 as the
    source does, and read as the count the callee takes it for. *)
Definition scaled_length {A : Type} (pop : list A) (rate : float) : Z :=
  Binary64.as_count
    (Binary64.Math_floor (PrimFloat.mul (Binary64.of_nat (List.length pop)) rate)).

(** *** src/scripts/genetic.js *)

Module Genetic.

Section Loop.

Context {T Target : Type}.

(** The fields [geneticAlgorithm] destructures from [model], and
    [stop_function], which the models of the repository define
    (models/model.js) and this loop never reads.  A missing [stop_value]
    is [None]. *)
Record model : Type := {
  creation_function : M T;
  fitness_function : T -> Target -> M Q;
  crossover_function : member T -> member T -> M T;
  mutation_function : T -> Q -> M T;
  stop_value : option Q;
  target_value : Target;
  stop_function : Q -> bool;
}.

(** [mutation_rate] is handed to the mutation function as it is; the loop
    multiplies with the other two rates. *)
Record configuration : Type := {
  population_size : Z;
  generations : Z;
  mutation_rate : Q;
  survival_rate : float;
  reproduction_rate : float;
}.

Definition default_configuration : configuration :=
  {| population_size := 100;
     generations := 100;
     mutation_rate := 1 # 100;
     survival_rate := 0.2;
     reproduction_rate := 1.5 |}.

(** [fitness === stop_value] *)
Definition equals_stop_value (m : model) (f : Q) : bool :=
  match stop_value m with
  | Some s => Qeq_bool f s
  | None => false
  end.

(** The condition of the [if] that guards [break]:
    [fittestIndividual(population).fitness === stop_value]. *)
Definition stop_condition (m : model) (pop : population T) : outcome bool :=
  match fittestIndividual pop None with
  | Ok slot =>
      match read_fitness slot with
      | Ok f => Ok (equals_stop_value m f)
      | Throw e => Throw e
      | Starved => Starved
      end
  | Throw e => Throw e
  | Starved => Starved
  end.

(** The [for] loop, [count] generations before the counter reaches
    [generations]. *)
Fixpoint generations_loop (m : model)
         (logging_function : list (list (individual T)) -> M unit)
         (c : configuration) (count : nat)
         (history : list (list (individual T))) (pop : list T)
  : M (loop_exit T) :=
  match count with
  | O => ret (Exhausted history pop)
  | S count' =>
      pop <- evaluateFitness pop (fitness_function m) (target_value m) ;;
      let history := history ++ [pop] in
      logging_function history ;;;
      stop <- lift (stop_condition m (evaluated pop)) ;;
      if (stop : bool) then ret (Stopped history pop)
      else
        let number_of_survivors := scaled_length pop (survival_rate c) in
        mating_pool <- weightedSampleWithoutReplacement
                         (evaluated pop) number_of_survivors None ;;
        let number_of_children := scaled_length pop (reproduction_rate c) in
        next_generation <- crossover mating_pool number_of_children
                                     (crossover_function m) None ;;
        next_generation <- mutate next_generation (mutation_function m)
                                  (mutation_rate c) ;;
        generations_loop m logging_function c count' history next_generation
  end.

Definition geneticAlgorithm (m : model)
           (logging_function : list (list (individual T)) -> M unit)
           (c : configuration) : M (returned T) :=
  pop <- randomPopulation (population_size c) (creation_function m) ;;
  generations_loop m logging_function c (Z.to_nat (generations c)) [] pop ;;;
  ret undefined.

End Loop.

Arguments model : clear implicits.

End Genetic.

(** *** The default-exported [geneticAlgorithm(model, options)] *)

Module GeneticDefault.

Section Loop.

Context {T : Type}.

(** The functions [geneticAlgorithm] destructures from [model], and what
    the [return] statement reads of an individual that was not evaluated:
    [carried_fitness i] is the [fitness] property of the object [i] as the
    functions of the model built it, [None] when it has none (a child
    that is a copy of an evaluated parent carries the parent's). *)
Record model : Type := {
  creation_function : Z -> M (list T);
  fitness_function : T -> M Q;
  crossover_function : member T -> member T -> M T;
  mutation_function : T -> Q -> M T;
  stop_function : Q -> bool;
  carried_fitness : T -> option Q;
}.

Record options : Type := {
  logging_function : list (list (individual T)) -> M unit;
  population_size : Z;
  generations : Z;
  mutation_rate : Q;
  survival_rate : float;
  reproduction_rate : float;
  ascending : bool;
}.

Definition default_options : options :=
  {| logging_function := fun _ => ret tt;
     population_size := 100;
     generations := 100;
     mutation_rate := 1 # 100;
     survival_rate := 0.2;
     reproduction_rate := 1.5;
     ascending := true |}.

(** [stop_function(fittestIndividual(population, ascending).fitness)] *)
Definition stop_condition (m : model) (o : options) (pop : population T)
  : outcome bool :=
  match fittestIndividual pop (Some (ascending o)) with
  | Ok slot =>
      match read_fitness slot with
      | Ok f => Ok (stop_function m f)
      | Throw e => Throw e
      | Starved => Starved
      end
  | Throw e => Throw e
  | Starved => Starved
  end.

Fixpoint generations_loop (m : model) (o : options) (count : nat)
         (history : list (list (individual T))) (pop : list T)
  : M (loop_exit T) :=
  match count with
  | O => ret (Exhausted history pop)
  | S count' =>
      pop <- evaluateFitness pop (fun i (_ : unit) => fitness_function m i) tt ;;
      let history := history ++ [pop] in
      logging_function o history ;;;
      stop <- lift (stop_condition m o (evaluated pop)) ;;
      if (stop : bool) then ret (Stopped history pop)
      else
        let number_of_survivors := scaled_length pop (survival_rate o) in
        mating_pool <- weightedSampleWithoutReplacement
                         (evaluated pop) number_of_survivors
                         (Some (ascending o)) ;;
        let number_of_children := scaled_length pop (reproduction_rate o) in
        next_generation <- crossover mating_pool number_of_children
                                     (crossover_function m)
                                     (Some (ascending o)) ;;
        next_generation <- mutate next_generation (mutation_function m)
                                  (mutation_rate o) ;;
        generations_loop m o count' history next_generation
  end.

(** [population.map(individual => individual.fitness)] on individuals
    that were not evaluated, when every one of them carries a fitness: each
    individual with the fitness it carries. *)
Fixpoint carried (m : model) (pop : list T) : option (list (individual T)) :=
  match pop with
  | [] => Some []
  | i :: rest =>
      match carried_fitness m i, carried m rest with
      | Some f, Some scored => Some ({| props := i; fitness := f |} :: scored)
      | _, _ => None
      end
  end.

(** [fittestIndividual(population, ascending)] on individuals that were
    not evaluated.  When one of them has no [fitness], [Math.max] and
    [Math.min] of the array are [NaN], which [indexOf] does not find: the
    index is [-1] and [population[-1]] is [undefined]. *)
Definition fittest_unevaluated (m : model) (pop : list T) (ascending : bool)
  : outcome (member T) :=
  match carried m pop with
  | Some scored => fittestIndividual (evaluated scored) (Some ascending)
  | None => Ok None
  end.

(** The [return] statement.  After [break], [population] is the evaluated
    population.  When the counter ran out, [population] holds the
    offspring of the last generation (the initial population when no
    generation was run), which were never evaluated. *)
Definition geneticAlgorithm (m : model) (o : options) : M (returned T) :=
  pop <- creation_function m (population_size o) ;;
  exit <- generations_loop m o (Z.to_nat (generations o)) [] pop ;;
  match exit with
  | Stopped history pop =>
      fittest <- lift (fittestIndividual (evaluated pop) (Some (ascending o))) ;;
      ret (record history fittest)
  | Exhausted history pop =>
      fittest <- lift (fittest_unevaluated m pop (ascending o)) ;;
      ret (record history fittest)
  end.

End Loop.

Arguments model : clear implicits.
Arguments options : clear implicits.

End GeneticDefault.

(** ** The earlier draft of src/scripts/genetic_functions.js

    The second version in the file: no [ascending] flag, no adjustment of
    negative or zero fitness, and a table that starts with the entry 0.
    Its [randomUniqueIndices] is the one above, word for word.  When the
    fitness values add up to zero the source divides by zero; the
    properties proved of this draft are about positive fitness. *)

Module Legacy.

Section Functions.

Context {T : Type}.

(** [relative_fitness.reduce((store, current, index) => [...store,
    store[index] + current], [0])] *)
Definition cumulative_sum (relative_fitness : list Q) : list Q :=
  reduce (fun store current index =>
            store ++ [match get store index with
                      | Some previous => previous + current
                      | None => current (* not reached: store has index + 1 entries *)
                      end])
         relative_fitness [0].

Definition relativeCumulativeFitness (pop : population T) : outcome (list Q) :=
  match map_outcome read_fitness pop with
  | Ok fitness => Ok (cumulative_sum (normalize fitness))
  | Throw e => Throw e
  | Starved => Starved
  end.

(** "subtract 1 from the indices because the weights array has an extra
    element at the beginning": [indices.map(index => population[index - 1])] *)
Definition weightedSampleWithoutReplacement (pop : population T) (n : Z)
  : M (population T) :=
  if (n >? Z.of_nat (List.length pop))%Z
  then throw (Error "n must be less than or equal to the population size")
  else
    weights <- lift (relativeCumulativeFitness pop) ;;
    indices <- randomUniqueIndices weights n ;;
    ret (map (fun index => at_index pop (index - 1)) indices).

End Functions.

End Legacy.

(** ** A small model, after the [TestModel] of genetic.test.js *)

Module Example.

(** An individual is the object [{ value }], kept as its [value]; the
    fitness of an individual is its value, a child is
    [{ value: parent1.value }] and mutation changes nothing.  Such an
    object has no [fitness] before it is evaluated. *)
Definition parent_value (slot : member Z) : M Z :=
  match slot with
  | Some i => ret (props i)
  | None => throw (TypeError "Cannot read properties of undefined (reading 'value')")
  end.

(** A model with a [stop_function] and no [stop_value], as the models of
    the repository are written. *)
Definition ones : Genetic.model Z unit :=
  {| Genetic.creation_function := ret 1%Z;
     Genetic.fitness_function := fun i _ => ret (inject_Z i);
     Genetic.crossover_function := fun parent1 _ => parent_value parent1;
     Genetic.mutation_function := fun i _ => ret i;
     Genetic.stop_value := None;
     Genetic.target_value := tt;
     Genetic.stop_function := fun f => Qeq_bool f 1 |}.

(** The same model with [stop_value = 5]. *)
Definition until_five : Genetic.model Z unit :=
  {| Genetic.creation_function := ret 1%Z;
     Genetic.fitness_function := fun i _ => ret (inject_Z i);
     Genetic.crossover_function := fun parent1 _ => parent_value parent1;
     Genetic.mutation_function := fun i _ => ret i;
     Genetic.stop_value := Some 5;
     Genetic.target_value := tt;
     Genetic.stop_function := fun f => Qeq_bool f 5 |}.

Definition two_generations : Genetic.configuration :=
  {| Genetic.population_size := 4;
     Genetic.generations := 2;
     Genetic.mutation_rate := 1 # 100;
     Genetic.survival_rate := 0.5;
     Genetic.reproduction_rate := 1 |}.

Definition no_logging (_ : list (list (individual Z))) : M unit := ret tt.

(** Draws for one generation: two survivors, then two parents for each of
    the four children. *)
Definition generation_draws : draws :=
  [1 # 10; 3 # 10] ++
  [1 # 10; 6 # 10; 1 # 10; 6 # 10; 1 # 10; 6 # 10; 1 # 10; 6 # 10].

Definition ones_default : GeneticDefault.model Z :=
  {| GeneticDefault.creation_function := fun n => ret (repeat 1%Z (Z.to_nat n));
     GeneticDefault.fitness_function := fun i => ret (inject_Z i);
     GeneticDefault.crossover_function := fun parent1 _ => parent_value parent1;
     GeneticDefault.mutation_function := fun i _ => ret i;
     GeneticDefault.stop_function := fun f => Qeq_bool f 1;
     GeneticDefault.carried_fitness := fun _ => None |}.

(** The default [stop_function] of models/model.js: never stop. *)
Definition never_stops : GeneticDefault.model Z :=
  {| GeneticDefault.creation_function := fun n => ret (repeat 1%Z (Z.to_nat n));
     GeneticDefault.fitness_function := fun i => ret (inject_Z i);
     GeneticDefault.crossover_function := fun parent1 _ => parent_value parent1;
     GeneticDefault.mutation_function := fun i _ => ret i;
     GeneticDefault.stop_function := fun _ => false;
     GeneticDefault.carried_fitness := fun _ => None |}.

Definition two_generations_default : GeneticDefault.options Z :=
  {| GeneticDefault.logging_function := no_logging;
     GeneticDefault.population_size := 4;
     GeneticDefault.generations := 2;
     GeneticDefault.mutation_rate := 1 # 100;
     GeneticDefault.survival_rate := 0.5;
     GeneticDefault.reproduction_rate := 1;
     GeneticDefault.ascending := true |}.

Definition one (v : Z) : individual Z := {| props := v; fitness := inject_Z v |}.

(** A configuration under which the population grows by half each
    generation, and the draws two generations need from four individuals:
    two survivors and six children, then three survivors and nine
    children. *)
Definition growing : Genetic.configuration :=
  {| Genetic.population_size := 4;
     Genetic.generations := 2;
     Genetic.mutation_rate := 1 # 100;
     Genetic.survival_rate := 0.5;
     Genetic.reproduction_rate := 1.5 |}.

Definition growing_draws : draws :=
  [1 # 10; 3 # 10] ++ concat (repeat [1 # 10; 6 # 10] 6) ++
  [1 # 10; 3 # 10; 4 # 10] ++ concat (repeat [1 # 10; 6 # 10] 9).

(** The default rates on a population of four. *)
Definition four_default : GeneticDefault.options Z :=
  {| GeneticDefault.logging_function := no_logging;
     GeneticDefault.population_size := 4;
     GeneticDefault.generations := 100;
     GeneticDefault.mutation_rate := 1 # 100;
     GeneticDefault.survival_rate := 0.2;
     GeneticDefault.reproduction_rate := 1.5;
     GeneticDefault.ascending := true |}.

Definition growing_default : GeneticDefault.options Z :=
  {| GeneticDefault.logging_function := no_logging;
     GeneticDefault.population_size := 4;
     GeneticDefault.generations := 2;
     GeneticDefault.mutation_rate := 1 # 100;
     GeneticDefault.survival_rate := 0.5;
     GeneticDefault.reproduction_rate := 1.5;
     GeneticDefault.ascending := true |}.

(** [{ value: v, fitness: f }], the individuals of genetic_functions.test.js *)
Definition scored (v : Z) (f : Q) : individual Z := {| props := v; fitness := f |}.

(** The population of most of its tests. *)
Definition four : list (individual Z) :=
  [scored 1 1; scored 2 2; scored 3 3; scored 4 4].

(** A model whose crossover function hands back a copy of its first
    parent, [parent1 => ({ value: parent1.value, fitness: parent1.fitness })]:
    an individual is [{ value }] or [{ value, fitness }], kept as the pair
    of its value and of the fitness it carries.  The initial population is
    [{ value: 1 }, { value: 5 }, { value: 1 }, { value: 1 }], the fitness
    of an individual is its value and the model never stops. *)
Definition copy_of_parent (slot : member (Z * option Q)) : M (Z * option Q) :=
  match slot with
  | Some i => ret (fst (props i), Some (fitness i))
  | None => throw (TypeError "Cannot read properties of undefined (reading 'value')")
  end.

Definition copying : GeneticDefault.model (Z * option Q) :=
  {| GeneticDefault.creation_function :=
       fun _ => ret [(1, None); (5, None); (1, None); (1, None)]%Z;
     GeneticDefault.fitness_function := fun i => ret (inject_Z (fst i));
     GeneticDefault.crossover_function := fun parent1 _ => copy_of_parent parent1;
     GeneticDefault.mutation_function := fun i _ => ret i;
     GeneticDefault.stop_function := fun _ => false;
     GeneticDefault.carried_fitness := snd |}.

Definition one_generation : GeneticDefault.options (Z * option Q) :=
  {| GeneticDefault.logging_function := fun _ => ret tt;
     GeneticDefault.population_size := 4;
     GeneticDefault.generations := 1;
     GeneticDefault.mutation_rate := 1 # 100;
     GeneticDefault.survival_rate := 0.5;
     GeneticDefault.reproduction_rate := 1;
     GeneticDefault.ascending := true |}.

(** Draws for that generation: the survivors at positions 0 and 1, then
    four times the parents at positions 0 and 1 of the mating pool. *)
Definition copying_draws : draws :=
  [1 # 100; 2 # 10] ++ concat (repeat [1 # 100; 9 # 10] 4).

(** Binary64 individuals [{ value: v, fitness: f }]. *)
Definition scored64 (v : Z) (f : float) : Double.individual Z :=
  {| Double.props := v; Double.fitness := f |}.

(** Seven individuals of fitness 1. *)
Definition seven_equal : list (Double.individual Z) :=
  map (fun v => scored64 v 1) [0; 1; 2; 3; 4; 5; 6]%Z.

(** The population of the tests, on binary64 numbers. *)
Definition four64 : list (Double.individual Z) :=
  [scored64 1 1; scored64 2 2; scored64 3 3; scored64 4 4].

(** The binary64 number 1 - 2^-52, which JavaScript prints
    0.9999999999999998. *)
Definition below_one : float := 0x1.ffffffffffffep-1.

End Example.

(** ** Vocabulary of the specification *)

(** The specification's error conditions, as the messages the code throws. *)
Definition InvalidSampleSize (e : error) : Prop :=
  e = Error "n must be less than or equal to the population size" \/
  e = Error "n must be between 0 and the population size".

Definition InsufficientPopulation : error :=
  Error "population size must be greater than 1".

(** The index a draw selects in a table: the first entry above the draw. *)
Definition selected (weights : list Q) (random_number : Q) : Z :=
  findIndex (fun f => Qlt_bool random_number f) weights.

(** Acceptance order: the indices of [hits] that are new when they come,
    given the indices [seen] so far. *)
Fixpoint first_occurrences (seen hits : list Z) : list Z :=
  match hits with
  | [] => []
  | index :: rest =>
      if includes seen index then first_occurrences seen rest
      else index :: first_occurrences (seen ++ [index]) rest
  end.

(** What [Math.random] promises of a draw. *)
Definition unit_draw (random_number : Q) : Prop :=
  0 <= random_number /\ random_number < 1.

(** What the sampler returns for an index: the individual at that
    position of the population, or [undefined] for the index [-1] of a draw
    that no entry of the table exceeds. *)
Definition slot_at {T : Type} (pop : list (Double.individual T)) (index : Z)
           (slot : Double.member T) : Prop :=
  (index = (-1)%Z /\ slot = None) \/
  (exists k x, index = Z.of_nat k /\ nth_error pop k = Some x /\ slot = Some x).

(** The sizes of successive generations: the first has [first]
    individuals and each next one [Math.floor(size * rate)] for the [size]
    of the one before. *)
Fixpoint generation_sizes {A : Type} (first : nat) (rate : float)
         (generations : list (list A)) : Prop :=
  match generations with
  | [] => True
  | pop :: later =>
      List.length pop = first /\
      generation_sizes (Z.to_nat (scaled_length pop rate)) rate later
  end.

(** * Properties *)

(** ** Comparisons, [Math.min], [Math.max] and array searches *)

Lemma Qlt_bool_true (x y : Q) : Qlt_bool x y = true <-> x < y.
Proof.
  unfold Qlt_bool. rewrite negb_true_iff.
  split; intro H.
  - apply Qnot_le_lt. intro L. apply Qle_bool_iff in L. congruence.
  - destruct (Qle_bool y x) eqn:E; [|reflexivity].
    apply Qle_bool_iff in E. apply Qlt_not_le in H. contradiction.
Qed.

Lemma Qlt_bool_false (x y : Q) : Qlt_bool x y = false <-> y <= x.
Proof.
  unfold Qlt_bool. rewrite negb_false_iff. apply Qle_bool_iff.
Qed.

Lemma Qeq_bool_false (x y : Q) : Qeq_bool x y = false <-> ~ x == y.
Proof.
  split; intro H.
  - intro E. apply Qeq_bool_iff in E. congruence.
  - destruct (Qeq_bool x y) eqn:E; [|reflexivity].
    apply Qeq_bool_iff in E. contradiction.
Qed.

Section Extremum.

Variable better : Q -> Q -> bool.

Lemma extremum_from (values : list Q) (a : Q) :
  exists m, fold_left (extremum_step better) values (Num a) = Num m /\
            (m = a \/ In m values).
Proof.
  revert a. induction values as [|v values IH]; intro a; simpl.
  - exists a. auto.
  - destruct (IH (if better a v then v else a)) as [m [E Hm]].
    exists m. split; [exact E|].
    destruct Hm as [->|Hin]; [|auto].
    destruct (better a v); auto.
Qed.

Lemma extremum_nonempty (values : list Q) (init : number) :
  (forall q, init <> Num q) -> values <> [] ->
  exists m, fold_left (extremum_step better) values init = Num m /\ In m values.
Proof.
  intros Inf NE. destruct values as [|v values]; [congruence|]. simpl.
  assert (S : extremum_step better init v = Num v).
  { destruct init; try reflexivity. exfalso. eapply Inf. reflexivity. }
  rewrite S.
  destruct (extremum_from values v) as [m [E Hm]].
  exists m. split; [exact E|]. destruct Hm as [->|Hin]; auto.
Qed.

End Extremum.

Lemma Math_min_from_le (values : list Q) (a m : Q) :
  fold_left (extremum_step (fun m v => Qlt_bool v m)) values (Num a) = Num m ->
  m <= a /\ forall v, In v values -> m <= v.
Proof.
  revert a. induction values as [|v values IH]; intros a E; simpl in E.
  - injection E as <-. split; [apply Qle_refl|]. intros v [].
  - apply IH in E. destruct E as [Lm Lall].
    destruct (Qlt_bool v a) eqn:B.
    + apply Qlt_bool_true in B. split; [lra|].
      intros w [<-|Hw]; [exact Lm|auto].
    + apply Qlt_bool_false in B. split; [exact Lm|].
      intros w [<-|Hw]; [lra|auto].
Qed.

Lemma Math_max_from_ge (values : list Q) (a m : Q) :
  fold_left (extremum_step (fun m v => Qlt_bool m v)) values (Num a) = Num m ->
  a <= m /\ forall v, In v values -> v <= m.
Proof.
  revert a. induction values as [|v values IH]; intros a E; simpl in E.
  - injection E as <-. split; [apply Qle_refl|]. intros v [].
  - apply IH in E. destruct E as [Lm Lall].
    destruct (Qlt_bool a v) eqn:B.
    + apply Qlt_bool_true in B. split; [lra|].
      intros w [<-|Hw]; [exact Lm|auto].
    + apply Qlt_bool_false in B. split; [exact Lm|].
      intros w [<-|Hw]; [lra|auto].
Qed.

(** [Math.min] of a non-empty array is one of its elements, below all. *)
Lemma Math_min_spec (values : list Q) :
  values <> [] ->
  exists m, Math_min values = Num m /\ In m values /\
            forall v, In v values -> m <= v.
Proof.
  intro NE. unfold Math_min.
  destruct (extremum_nonempty (fun m v => Qlt_bool v m) values PosInfinity
              ltac:(discriminate) NE) as [m [E Hin]].
  exists m. split; [exact E|]. split; [exact Hin|].
  destruct values as [|v values]; [congruence|].
  simpl in E. apply Math_min_from_le in E. destruct E as [L Lall].
  intros w [<-|Hw]; auto.
Qed.

(** [Math.max] of a non-empty array is one of its elements, above all. *)
Lemma Math_max_spec (values : list Q) :
  values <> [] ->
  exists m, Math_max values = Num m /\ In m values /\
            forall v, In v values -> v <= m.
Proof.
  intro NE. unfold Math_max.
  destruct (extremum_nonempty (fun m v => Qlt_bool m v) values NegInfinity
              ltac:(discriminate) NE) as [m [E Hin]].
  exists m. split; [exact E|]. split; [exact Hin|].
  destruct values as [|v values]; [congruence|].
  simpl in E. apply Math_max_from_ge in E. destruct E as [L Lall].
  intros w [<-|Hw]; auto.
Qed.

(** [findIndex] returns the first index that satisfies the test. *)
Lemma findIndex_from_found {A : Type} (p : A -> bool) (array : list A) (i : Z) :
  existsb p array = true ->
  exists k x,
    findIndex_from p array i = (i + Z.of_nat k)%Z /\
    nth_error array k = Some x /\ p x = true /\
    forall j y, (j < k)%nat -> nth_error array j = Some y -> p y = false.
Proof.
  revert i. induction array as [|a array IH]; intros i H; simpl in H.
  - discriminate.
  - simpl. destruct (p a) eqn:Pa.
    + exists O, a. repeat split; auto.
      * lia.
      * intros j y Hj. lia.
    + simpl in H. destruct (IH (i + 1)%Z H) as [k [x [E [N [Px F]]]]].
      exists (S k), x. repeat split; auto.
      * rewrite E. lia.
      * intros [|j] y Hj Hy; simpl in Hy.
        -- injection Hy as <-. exact Pa.
        -- apply (F j); [lia|exact Hy].
Qed.

Lemma findIndex_from_none {A : Type} (p : A -> bool) (array : list A) (i : Z) :
  existsb p array = false -> findIndex_from p array i = (-1)%Z.
Proof.
  revert i. induction array as [|a array IH]; intros i H; simpl in *.
  - reflexivity.
  - apply orb_false_iff in H. destruct H as [Pa H]. rewrite Pa. auto.
Qed.

Lemma get_of_nat {A : Type} (array : list A) (k : nat) :
  get array (Z.of_nat k) = nth_error array k.
Proof.
  unfold get. destruct (Z.of_nat k <? 0)%Z eqn:E.
  - apply Z.ltb_lt in E. lia.
  - rewrite Nat2Z.id. reflexivity.
Qed.

Lemma get_negative {A : Type} (array : list A) (i : Z) :
  (i < 0)%Z -> get array i = None.
Proof.
  intro H. unfold get. apply Z.ltb_lt in H. rewrite H. reflexivity.
Qed.

(** ** [fittestIndividual] *)

Section FittestIndividual.

Context {T : Type}.

Lemma read_fitness_evaluated (pop : list (individual T)) :
  map_outcome read_fitness (evaluated pop) = Ok (map fitness pop).
Proof.
  unfold evaluated.
  induction pop as [|i pop IH]; simpl; [reflexivity|].
  rewrite IH. reflexivity.
Qed.

Lemma at_index_evaluated (pop : list (individual T)) (k : nat) :
  at_index (evaluated pop) (Z.of_nat k) = nth_error pop k.
Proof.
  unfold at_index, evaluated. rewrite get_of_nat, nth_error_map.
  destruct (nth_error pop k); reflexivity.
Qed.

(** The index [indexOf] finds for a value that occurs in the array. *)
Lemma indexOf_member (pop : list (individual T)) (m : Q) :
  In m (map fitness pop) ->
  exists k x,
    indexOf (map fitness pop) (Num m) = Z.of_nat k /\
    nth_error pop k = Some x /\ fitness x == m /\
    forall j y, (j < k)%nat -> nth_error pop j = Some y -> ~ fitness y == m.
Proof.
  intro Hin. unfold indexOf, findIndex.
  assert (Ex : existsb (fun v => strict_equal v (Num m)) (map fitness pop) = true).
  { apply existsb_exists. exists m. split; [exact Hin|].
    simpl. apply Qeq_bool_iff. reflexivity. }
  destruct (findIndex_from_found _ _ 0%Z Ex) as [k [v [E [N [P F]]]]].
  rewrite nth_error_map in N.
  destruct (nth_error pop k) as [x|] eqn:Nx; [|discriminate].
  simpl in N. injection N as <-.
  exists k, x. split; [rewrite E; lia|]. split; [exact Nx|]. split.
  - simpl in P. apply Qeq_bool_iff in P. exact P.
  - intros j y Hj Hy.
    specialize (F j (fitness y) Hj).
    rewrite nth_error_map, Hy in F. specialize (F eq_refl).
    simpl in F. apply Qeq_bool_false in F. exact F.
Qed.

(** On a non-empty evaluated population, [fittestIndividual] returns the
    first individual whose fitness is extremal: the maximum when the flag
    is truthy, the minimum otherwise. *)
Lemma fittestIndividual_spec (pop : list (individual T)) (flag : option bool) :
  pop <> [] ->
  exists k x,
    fittestIndividual (evaluated pop) flag = Ok (Some x) /\
    nth_error pop k = Some x /\
    (forall y, In y pop ->
               if truthy flag then fitness y <= fitness x
               else fitness x <= fitness y) /\
    (forall j y, (j < k)%nat -> nth_error pop j = Some y ->
                 if truthy flag then fitness y < fitness x
                 else fitness x < fitness y).
Proof.
  intro NE.
  assert (NEf : map fitness pop <> []).
  { destruct pop; [congruence|discriminate]. }
  unfold fittestIndividual. rewrite read_fitness_evaluated.
  destruct (truthy flag).
  - destruct (Math_max_spec _ NEf) as [m [E [Hin Hmax]]]. rewrite E.
    destruct (indexOf_member pop m Hin) as [k [x [Ei [N [Fx F]]]]].
    exists k, x. rewrite Ei, at_index_evaluated.
    split; [rewrite N; reflexivity|]. split; [exact N|]. split.
    + intros y Hy. rewrite Fx. apply Hmax. apply in_map. exact Hy.
    + intros j y Hj Hy. specialize (F j y Hj Hy).
      assert (L : fitness y <= m).
      { apply Hmax. apply in_map. eapply nth_error_In. exact Hy. }
      rewrite Fx. apply Qle_lteq in L. destruct L; [assumption|contradiction].
  - destruct (Math_min_spec _ NEf) as [m [E [Hin Hmin]]]. rewrite E.
    destruct (indexOf_member pop m Hin) as [k [x [Ei [N [Fx F]]]]].
    exists k, x. rewrite Ei, at_index_evaluated.
    split; [rewrite N; reflexivity|]. split; [exact N|]. split.
    + intros y Hy. rewrite Fx. apply Hmin. apply in_map. exact Hy.
    + intros j y Hj Hy. specialize (F j y Hj Hy).
      assert (L : m <= fitness y).
      { apply Hmin. apply in_map. eapply nth_error_In. exact Hy. }
      rewrite Fx. apply Qle_lteq in L. destruct L as [L|L]; [assumption|].
      exfalso. apply F. symmetry. exact L.
Qed.

(** C5: on a non-empty evaluated population, [fittestIndividual] with
    [ascending = true] returns the individual of maximum fitness and with
    [ascending = false] the individual of minimum fitness; among
    individuals of that fitness it returns the first in population order
    (every earlier individual is strictly worse). *)
Theorem fittestIndividual_extremal_first
        (pop : list (individual T)) (ascending : bool) :
  pop <> [] ->
  exists k x,
    fittestIndividual (evaluated pop) (Some ascending) = Ok (Some x) /\
    nth_error pop k = Some x /\
    (forall y, In y pop ->
               if ascending then fitness y <= fitness x
               else fitness x <= fitness y) /\
    (forall j y, (j < k)%nat -> nth_error pop j = Some y ->
                 if ascending then fitness y < fitness x
                 else fitness x < fitness y).
Proof.
  intro NE. exact (fittestIndividual_spec pop (Some ascending) NE).
Qed.

(** C6, as the code has it: on a population of zero individuals
    [fittestIndividual] returns [undefined] for either direction (and for
    an omitted flag); nothing is thrown. *)
Theorem fittestIndividual_empty_undefined (flag : option bool) :
  fittestIndividual (T := T) [] flag = Ok None.
Proof.
  unfold fittestIndividual. simpl. destruct (truthy flag); reflexivity.
Qed.

End FittestIndividual.

(** C5 at a population with a tie: the first of the two fittest is
    returned, in both directions. *)
Lemma fittestIndividual_extremal_first_witness :
  let pop := [Example.one 2; Example.one 5; Example.one 5; Example.one 2] in
  pop <> [] /\
  exists k x,
    fittestIndividual (evaluated pop) (Some true) = Ok (Some x) /\
    nth_error pop k = Some x /\
    (forall y, In y pop -> fitness y <= fitness x) /\
    (forall j y, (j < k)%nat -> nth_error pop j = Some y -> fitness y < fitness x).
Proof.
  split; [discriminate|].
  apply (fittestIndividual_extremal_first
           [Example.one 2; Example.one 5; Example.one 5; Example.one 2] true).
  discriminate.
Defined.

(** C6 as stated fails: the call on the empty population is a normal
    return, not a thrown error. *)
Lemma fittestIndividual_empty_no_error :
  fittestIndividual (T := Z) [] (Some true) = Ok None /\
  ~ exists e, fittestIndividual (T := Z) [] (Some true) = Throw e.
Proof.
  split; [reflexivity|].
  intros [e H]. vm_compute in H. discriminate.
Qed.

(** ** The numeric pipeline of [relativeCumulativeFitness] *)

Section Totals.

Lemma total_from (values : list Q) (a : Q) :
  fold_left (fun total i => total + i) values a == a + total values.
Proof.
  unfold total. revert a.
  induction values as [|v values IH]; intro a; simpl.
  - lra.
  - rewrite (IH (a + v)), (IH (0 + v)). lra.
Qed.

Lemma total_cons (v : Q) (values : list Q) :
  total (v :: values) == v + total values.
Proof.
  unfold total at 1. simpl. rewrite total_from. lra.
Qed.

Lemma total_app (xs ys : list Q) :
  total (xs ++ ys) == total xs + total ys.
Proof.
  induction xs as [|x xs IH]; simpl.
  - unfold total at 2. simpl. lra.
  - rewrite !total_cons, IH. lra.
Qed.

Lemma total_nonneg (values : list Q) :
  Forall (fun v => 0 <= v) values -> 0 <= total values.
Proof.
  induction 1 as [|v values Hv _ IH].
  - unfold total. simpl. lra.
  - rewrite total_cons. lra.
Qed.

Lemma total_pos (values : list Q) :
  values <> [] -> Forall (fun v => 0 < v) values -> 0 < total values.
Proof.
  intros NE H. destruct H as [|v values Hv H]; [congruence|].
  rewrite total_cons.
  assert (0 <= total values).
  { apply total_nonneg. eapply Forall_impl; [|exact H]. simpl. intros. lra. }
  lra.
Qed.


Lemma total_scaled (values : list Q) (t : Q) :
  total (map (fun i => i / t) values) == total values / t.
Proof.
  induction values as [|v values IH]; simpl.
  - unfold total. simpl. unfold Qdiv. ring.
  - rewrite !total_cons, IH. unfold Qdiv. ring.
Qed.

Lemma total_firstn_S (values : list Q) (k : nat) (x : Q) :
  nth_error values k = Some x ->
  total (firstn (S k) values) == total (firstn k values) + x.
Proof.
  revert k. induction values as [|v values IH]; intros [|k] H; simpl in H;
    try discriminate.
  - injection H as <-. simpl. rewrite total_cons. unfold total. simpl. lra.
  - change (firstn (S (S k)) (v :: values)) with (v :: firstn (S k) values).
    change (firstn (S k) (v :: values)) with (v :: firstn k values).
    rewrite !total_cons, (IH k H). lra.
Qed.

End Totals.

Section Pipeline.

Lemma existsb_negative (fitness : list Q) :
  existsb (fun value => Qlt_bool value 0) fitness = true ->
  exists v, In v fitness /\ v < 0.
Proof.
  intro H. apply existsb_exists in H. destruct H as [v [Hin Hv]].
  exists v. split; [exact Hin|]. apply Qlt_bool_true. exact Hv.
Qed.

Lemma no_negative (fitness : list Q) :
  existsb (fun value => Qlt_bool value 0) fitness = false ->
  Forall (fun v => 0 <= v) fitness.
Proof.
  intro H. apply Forall_forall. intros v Hin.
  destruct (Qlt_bool v 0) eqn:B.
  - assert (existsb (fun value => Qlt_bool value 0) fitness = true).
    { apply existsb_exists. exists v. auto. }
    congruence.
  - apply Qlt_bool_false. exact B.
Qed.

Lemma shift_negative_length (fitness : list Q) :
  List.length (shift_negative fitness) = List.length fitness.
Proof.
  unfold shift_negative.
  destruct (existsb _ fitness); [|reflexivity].
  destruct (Math_min fitness); try reflexivity. apply length_map.
Qed.

(** After the shift no value is negative. *)
Lemma shift_negative_nonneg (fitness : list Q) :
  Forall (fun v => 0 <= v) (shift_negative fitness).
Proof.
  unfold shift_negative.
  destruct (existsb _ fitness) eqn:Ex; [|apply no_negative; exact Ex].
  destruct (existsb_negative _ Ex) as [v [Hin Hv]].
  assert (NE : fitness <> []) by (destruct fitness; [contradiction|discriminate]).
  destruct (Math_min_spec _ NE) as [m [E [_ Hmin]]]. rewrite E.
  apply Forall_forall. intros w Hw.
  apply in_map_iff in Hw. destruct Hw as [u [<- Hu]].
  assert (m <= u) by auto. assert (m <= v) by auto.
  assert (Qabs m == - m) by (apply Qabs_neg; lra).
  lra.
Qed.

Lemma lift_zero_length (fitness : list Q) :
  List.length (lift_zero fitness) = List.length fitness.
Proof.
  unfold lift_zero. destruct (existsb _ fitness); [apply length_map|reflexivity].
Qed.

(** After the lift every value is positive. *)
Lemma lift_zero_pos (fitness : list Q) :
  Forall (fun v => 0 <= v) fitness ->
  Forall (fun v => 0 < v) (lift_zero fitness).
Proof.
  intro H. unfold lift_zero.
  destruct (existsb _ fitness) eqn:Ex.
  - apply Forall_forall. intros w Hw.
    apply in_map_iff in Hw. destruct Hw as [u [<- Hu]].
    rewrite Forall_forall in H. specialize (H u Hu). simpl in H. lra.
  - apply Forall_forall. intros v Hv.
    rewrite Forall_forall in H. specialize (H v Hv). simpl in H.
    assert (N : Qeq_bool v 0 = false).
    { destruct (Qeq_bool v 0) eqn:B; [|reflexivity].
      assert (existsb (fun value => Qeq_bool value 0) fitness = true).
      { apply existsb_exists. exists v. auto. }
      congruence. }
    apply Qeq_bool_false in N.
    apply Qle_lteq in H. destruct H as [H|H]; [exact H|].
    exfalso. apply N. symmetry. exact H.
Qed.

Lemma invert_length (flag : option bool) (fitness : list Q) :
  List.length (invert flag fitness) = List.length fitness.
Proof.
  unfold invert. destruct (negb (truthy flag)); [apply length_map|reflexivity].
Qed.

Lemma invert_pos (flag : option bool) (fitness : list Q) :
  Forall (fun v => 0 < v) fitness ->
  Forall (fun v => 0 < v) (invert flag fitness).
Proof.
  intro H. unfold invert. destruct (negb (truthy flag)); [|exact H].
  apply Forall_forall. intros w Hw.
  apply in_map_iff in Hw. destruct Hw as [u [<- Hu]].
  rewrite Forall_forall in H. specialize (H u Hu). simpl in H.
  unfold Qdiv. rewrite Qmult_1_l. apply Qinv_lt_0_compat. exact H.
Qed.

Lemma normalize_length (fitness : list Q) :
  List.length (normalize fitness) = List.length fitness.
Proof. unfold normalize. apply length_map. Qed.

(** The relative weights of positive values are positive and add up to 1. *)
Lemma normalize_pos (fitness : list Q) :
  fitness <> [] ->
  Forall (fun v => 0 < v) fitness ->
  Forall (fun v => 0 < v) (normalize fitness).
Proof.
  intros NE H. pose proof (total_pos _ NE H) as Tp.
  unfold normalize. apply Forall_forall. intros w Hw.
  apply in_map_iff in Hw. destruct Hw as [u [<- Hu]].
  rewrite Forall_forall in H. specialize (H u Hu). simpl in H.
  unfold Qdiv. apply Qmult_lt_0_compat; [exact H|].
  apply Qinv_lt_0_compat. exact Tp.
Qed.

Lemma normalize_total (fitness : list Q) :
  fitness <> [] ->
  Forall (fun v => 0 < v) fitness ->
  total (normalize fitness) == 1.
Proof.
  intros NE H. pose proof (total_pos _ NE H) as Tp.
  unfold normalize. rewrite total_scaled. field. lra.
Qed.

(** No division of the pipeline is a division by zero: the values that
    [invert] divides by are positive, and so is the total that [normalize]
    divides by whenever there is a value to divide. *)
Lemma divisors_positive (fitness : list Q) (flag : option bool) :
  Forall (fun v => 0 < v) (lift_zero (shift_negative fitness)) /\
  (fitness <> [] ->
   0 < total (invert flag (lift_zero (shift_negative fitness)))).
Proof.
  assert (P : Forall (fun v => 0 < v) (lift_zero (shift_negative fitness))).
  { apply lift_zero_pos, shift_negative_nonneg. }
  split; [exact P|]. intro NE.
  apply total_pos; [|apply invert_pos; exact P].
  intro E. apply (f_equal (@List.length Q)) in E.
  rewrite invert_length, lift_zero_length, shift_negative_length in E.
  destruct fitness; [congruence|discriminate].
Qed.

(** The relative weights the table is built from. *)
Lemma relative_weights (fitness : list Q) (flag : option bool) :
  fitness <> [] ->
  let relative :=
    normalize (invert flag (lift_zero (shift_negative fitness))) in
  List.length relative = List.length fitness /\
  Forall (fun v => 0 < v) relative /\
  total relative == 1.
Proof.
  intros NE relative. subst relative.
  assert (P : Forall (fun v => 0 < v)
                (invert flag (lift_zero (shift_negative fitness)))).
  { apply invert_pos, lift_zero_pos, shift_negative_nonneg. }
  assert (L : List.length (invert flag (lift_zero (shift_negative fitness)))
              = List.length fitness).
  { rewrite invert_length, lift_zero_length, shift_negative_length. reflexivity. }
  assert (NE' : invert flag (lift_zero (shift_negative fitness)) <> []).
  { intro E. rewrite E in L. destruct fitness; [congruence|discriminate]. }
  split; [rewrite normalize_length; exact L|].
  split; [apply normalize_pos; assumption|apply normalize_total; assumption].
Qed.

End Pipeline.

Section CumulativeSum.

Lemma or_zero_some (c : Q) : or_zero (Some c) == c.
Proof.
  unfold or_zero. destruct (Qeq_bool c 0) eqn:B; [|reflexivity].
  apply Qeq_bool_iff in B. symmetry. exact B.
Qed.

(** The element before position [length acc]: the last one accumulated. *)
Lemma or_zero_previous (acc done : list Q) :
  List.length acc = List.length done ->
  (forall k c, nth_error acc k = Some c -> c == total (firstn (S k) done)) ->
  or_zero (get acc (Z.of_nat (List.length done) - 1)) == total done.
Proof.
  intros L Inv. destruct (List.length done) as [|n] eqn:Ld.
  - rewrite get_negative by lia.
    destruct done; [|discriminate]. unfold total. simpl. reflexivity.
  - replace (Z.of_nat (S n) - 1)%Z with (Z.of_nat n) by lia.
    rewrite get_of_nat.
    destruct (nth_error acc n) as [c|] eqn:N.
    + rewrite or_zero_some, (Inv n c N).
      rewrite firstn_all2 by lia. reflexivity.
    + apply nth_error_None in N. lia.
Qed.

Lemma reduce_cumulative (todo done acc : list Q) :
  List.length acc = List.length done ->
  (forall k c, nth_error acc k = Some c -> c == total (firstn (S k) done)) ->
  let r := reduce_from
             (fun cumulative i index =>
                cumulative ++ [i + or_zero (get cumulative (index - 1))])
             todo (Z.of_nat (List.length done)) acc in
  List.length r = (List.length done + List.length todo)%nat /\
  forall k c, nth_error r k = Some c ->
              c == total (firstn (S k) (done ++ todo)).
Proof.
  revert done acc. induction todo as [|x todo IH]; intros done acc L Inv; simpl.
  - rewrite app_nil_r. split; [lia|exact Inv].
  - pose proof (or_zero_previous acc done L Inv) as Prev.
    replace (Z.of_nat (List.length done) + 1)%Z
      with (Z.of_nat (List.length (done ++ [x])))
      by (rewrite length_app; simpl; lia).
    replace (done ++ x :: todo) with ((done ++ [x]) ++ todo)
      by (rewrite <- app_assoc; reflexivity).
    replace (List.length done + S (List.length todo))%nat
      with (List.length (done ++ [x]) + List.length todo)%nat
      by (rewrite length_app; simpl; lia).
    apply IH.
    + rewrite !length_app. simpl. lia.
    + intros k c N.
      destruct (Nat.lt_ge_cases k (List.length acc)) as [Hk|Hk].
      * rewrite nth_error_app1 in N by exact Hk.
        rewrite (Inv k c N), firstn_app.
        replace (S k - List.length done)%nat with O by lia.
        simpl. rewrite app_nil_r. reflexivity.
      * rewrite nth_error_app2 in N by exact Hk.
        destruct (k - List.length acc)%nat as [|d] eqn:D.
        -- simpl in N. injection N as <-.
           rewrite firstn_all2 by (rewrite length_app; simpl; lia).
           assert (One : total [x] == x) by (unfold total; simpl; lra).
           rewrite total_app, Prev, One. lra.
        -- simpl in N. destruct d; discriminate.
Qed.

(** Entry [k] of the table is the sum of the first [k + 1] relative
    weights. *)
Lemma cumulative_sum_prefix (relative : list Q) :
  List.length (cumulative_sum relative) = List.length relative /\
  forall k c, nth_error (cumulative_sum relative) k = Some c ->
              c == total (firstn (S k) relative).
Proof.
  unfold cumulative_sum, reduce.
  apply (reduce_cumulative relative [] []); [reflexivity|].
  intros [|k] c N; discriminate.
Qed.

End CumulativeSum.

(** ** The table of [relativeCumulativeFitness] *)

Section Table.


(** For a non-empty array of fitness values the table has one entry per
    value, starts above zero, increases strictly and ends at 1. *)
Lemma weights_of_table (fitness : list Q) (flag : option bool) :
  fitness <> [] ->
  let weights := weights_of fitness flag in
  List.length weights = List.length fitness /\
  (forall c, nth_error weights 0 = Some c -> 0 < c) /\
  (forall k a b, nth_error weights k = Some a ->
                 nth_error weights (S k) = Some b -> a < b) /\
  (exists final,
      nth_error weights (List.length fitness - 1) = Some final /\ final == 1).
Proof.
  intros NE weights. subst weights. unfold weights_of.
  destruct (relative_weights fitness flag NE) as [L [P Tot]].
  set (relative := normalize (invert flag (lift_zero (shift_negative fitness)))) in *.
  destruct (cumulative_sum_prefix relative) as [Lc Pre].
  assert (Pos : forall k x, nth_error relative k = Some x -> 0 < x).
  { intros k x N. rewrite Forall_forall in P. apply (P x).
    eapply nth_error_In. exact N. }
  split; [lia|]. split; [|split].
  - intros c N. rewrite (Pre _ _ N).
    destruct (nth_error relative 0) as [x|] eqn:Nx.
    + rewrite (total_firstn_S _ _ _ Nx). simpl. unfold total at 1. simpl.
      specialize (Pos _ _ Nx). lra.
    + apply nth_error_None in Nx.
      assert (nth_error (cumulative_sum relative) 0 <> None) by congruence.
      apply nth_error_Some in H. lia.
  - intros k a b Na Nb. rewrite (Pre _ _ Na), (Pre _ _ Nb).
    destruct (nth_error relative (S k)) as [x|] eqn:Nx.
    + rewrite (total_firstn_S _ (S k) _ Nx). specialize (Pos _ _ Nx). lra.
    + apply nth_error_None in Nx.
      assert (nth_error (cumulative_sum relative) (S k) <> None) by congruence.
      apply nth_error_Some in H. lia.
  - destruct (nth_error (cumulative_sum relative) (List.length fitness - 1))
      as [final|] eqn:N.
    + exists final. split; [reflexivity|].
      rewrite (Pre _ _ N), firstn_all2 by lia. exact Tot.
    + apply nth_error_None in N.
      destruct fitness; [congruence|]. simpl in *. lia.
Qed.

Lemma relativeCumulativeFitness_evaluated {T : Type}
      (pop : list (individual T)) (flag : option bool) :
  relativeCumulativeFitness (evaluated pop) flag
  = Ok (weights_of (map fitness pop) flag).
Proof.
  unfold relativeCumulativeFitness. rewrite read_fitness_evaluated. reflexivity.
Qed.


End Table.



(** ** Equal fitness values *)

Section Uniform.








End Uniform.



(** ** [randomUniqueIndices] and [weightedSampleWithoutReplacement] *)

Section Sampling.

Lemma weights_of_length (fitness : list Q) (flag : option bool) :
  List.length (weights_of fitness flag) = List.length fitness.
Proof.
  unfold weights_of.
  destruct (cumulative_sum_prefix
              (normalize (invert flag (lift_zero (shift_negative fitness)))))
    as [L _].
  rewrite L, normalize_length, invert_length, lift_zero_length,
    shift_negative_length.
  reflexivity.
Qed.

(** One iteration of the [while] loop: [Math.random()], [findIndex], and
    the push of an index that is not included yet. *)
Lemma randomUniqueIndices_loop_draws (weights : list Q) (n : Z)
      (indices : list Z) (queue : draws) :
  randomUniqueIndices_loop weights n indices queue
  = if (Z.of_nat (List.length indices) <? n)%Z
    then (random_number <- Math_random ;;
          let index := findIndex (fun f => Qlt_bool random_number f) weights in
          randomUniqueIndices_loop
            weights n
            (if negb (includes indices index) then indices ++ [index] else indices))
           queue
    else ret indices queue.
Proof.
  destruct queue; simpl; destruct (Z.of_nat (List.length indices) <? n)%Z;
    reflexivity.
Qed.

(** The [while] loop never throws. *)
Lemma randomUniqueIndices_loop_no_throw (weights : list Q) (n : Z)
      (queue : draws) (indices : list Z) (e : error) :
  randomUniqueIndices_loop weights n indices queue <> Throw e.
Proof.
  revert indices. induction queue as [|r queue IH]; intro indices; simpl.
  - destruct (Z.of_nat (List.length indices) <? n)%Z; discriminate.
  - destruct (Z.of_nat (List.length indices) <? n)%Z; [apply IH|discriminate].
Qed.

(** With too few new indices among the draws the loop asks for more. *)
Lemma randomUniqueIndices_loop_starved (weights : list Q) (n : Z)
      (queue : draws) (indices : list Z) :
  (List.length (first_occurrences indices (map (selected weights) queue))
   < Z.to_nat n - List.length indices)%nat ->
  randomUniqueIndices_loop weights n indices queue = Starved.
Proof.
  revert indices. induction queue as [|r queue IH]; intros indices H.
  - simpl in *. destruct (Z.of_nat (List.length indices) <? n)%Z eqn:C;
      [reflexivity|]. apply Z.ltb_ge in C. lia.
  - cbn [randomUniqueIndices_loop].
    destruct (Z.of_nat (List.length indices) <? n)%Z eqn:C.
    + cbn [map first_occurrences] in H.
      fold (selected weights r).
      destruct (includes indices (selected weights r)) eqn:I; simpl negb; cbv iota.
      * apply IH. exact H.
      * apply IH. rewrite length_app. simpl in *. lia.
    + apply Z.ltb_ge in C. lia.
Qed.

Lemma includes_true (seen : list Z) (i : Z) :
  includes seen i = true <-> In i seen.
Proof.
  unfold includes. rewrite existsb_exists. split.
  - intros [x [Hin E]]. apply Z.eqb_eq in E. subst. exact Hin.
  - intro H. exists i. split; [exact H|apply Z.eqb_refl].
Qed.

End Sampling.

Section Sample.

Context {T : Type}.

(** In exact arithmetic the table ends at 1, and a draw of [Math.random]
    selects a position of a non-empty population. *)
Lemma selected_in_range (fitness : list Q) (flag : option bool) (r : Q) :
  fitness <> [] -> unit_draw r ->
  exists k, selected (weights_of fitness flag) r = Z.of_nat k /\
            (k < List.length fitness)%nat.
Proof.
  intros NE [_ Hr].
  destruct (weights_of_table fitness flag NE) as [L [_ [_ [final [N F]]]]].
  assert (Ex : existsb (fun f => Qlt_bool r f) (weights_of fitness flag) = true).
  { apply existsb_exists. exists final. split.
    - eapply nth_error_In. exact N.
    - apply Qlt_bool_true. rewrite F. exact Hr. }
  destruct (findIndex_from_found _ _ 0%Z Ex) as [k [x [E [Nk _]]]].
  exists k. split; [unfold selected, findIndex; rewrite E; lia|].
  rewrite <- L. apply nth_error_Some. congruence.
Qed.

(** What the sampler does once its guards are passed. *)
Lemma weightedSample_runs (pop : list (individual T)) (n : Z)
      (flag : option bool) (queue : draws) :
  (0 <= n <= Z.of_nat (List.length pop))%Z ->
  weightedSampleWithoutReplacement (evaluated pop) n flag queue
  = match randomUniqueIndices_loop (weights_of (map fitness pop) flag) n [] queue with
    | Ok (indices, rest) =>
        Ok (map (fun index => at_index (evaluated pop) index) indices, rest)
    | Throw e => Throw e
    | Starved => Starved
    end.
Proof.
  intro R. unfold weightedSampleWithoutReplacement.
  assert (Le : List.length (evaluated pop) = List.length pop)
    by (unfold evaluated; apply length_map).
  rewrite Le.
  destruct (n >? Z.of_nat (List.length pop))%Z eqn:G.
  { apply Z.gtb_lt in G. lia. }
  unfold bind, lift. rewrite relativeCumulativeFitness_evaluated.
  unfold randomUniqueIndices.
  rewrite weights_of_length, length_map.
  destruct (n <? 0)%Z eqn:G0.
  { apply Z.ltb_lt in G0. lia. }
  rewrite G. change (false || false) with false. cbv iota.
  destruct (randomUniqueIndices_loop _ n [] queue) as [[indices rest]| |];
    reflexivity.
Qed.

End Sample.

(** The sample of that test: the individuals of positions 0 and 2. *)
Lemma weightedSample_test_sample :
  weightedSampleWithoutReplacement
    (evaluated [Example.scored 1 1; Example.scored 2 2;
                Example.scored 3 3; Example.scored 4 4])
    2 (Some true) [1 # 100; 5 # 100; 38 # 100]
  = Ok (evaluated [Example.scored 1 1; Example.scored 3 3], []).
Proof. vm_compute. reflexivity. Qed.

Section Guards.

Context {T : Type}.

(** C8: on an evaluated population, [weightedSampleWithoutReplacement]
    throws one of its two sample-size errors exactly when [n] is negative or
    greater than the population size; for [n] in range neither is thrown,
    whatever the draws. *)
Theorem weightedSample_invalid_size_iff
        (pop : list (individual T)) (n : Z) (flag : option bool) (queue : draws) :
  (exists e, weightedSampleWithoutReplacement (evaluated pop) n flag queue = Throw e
             /\ InvalidSampleSize e)
  <-> (n < 0 \/ Z.of_nat (List.length pop) < n)%Z.
Proof.
  split.
  - intros [e [E _]].
    destruct (Z.lt_ge_cases n 0) as [Neg|Nonneg]; [left; exact Neg|].
    destruct (Z.lt_ge_cases (Z.of_nat (List.length pop)) n) as [Big|Small];
      [right; exact Big|].
    exfalso. rewrite weightedSample_runs in E by lia.
    destruct (randomUniqueIndices_loop _ n [] queue) as [[indices rest]|e'|] eqn:L;
      try discriminate.
    eapply randomUniqueIndices_loop_no_throw. exact L.
  - intros H. unfold weightedSampleWithoutReplacement.
    assert (Le : List.length (evaluated pop) = List.length pop)
      by (unfold evaluated; apply length_map).
    rewrite Le.
    destruct (n >? Z.of_nat (List.length pop))%Z eqn:G.
    + eexists. split; [reflexivity|]. left. reflexivity.
    + assert (Neg : (n < 0)%Z).
      { destruct H as [H|H]; [exact H|]. rewrite Z.gtb_ltb in G.
        apply Z.ltb_ge in G. lia. }
      unfold bind, lift. rewrite relativeCumulativeFitness_evaluated.
      unfold randomUniqueIndices.
      apply Z.ltb_lt in Neg. rewrite Neg. simpl orb. cbv iota.
      eexists. split; [reflexivity|]. right. reflexivity.
Qed.

(** C7: [crossover] on a mating pool of fewer than 2 individuals throws its
    error before anything else, for every requested count, crossover
    function, direction and queue of draws. *)
Theorem crossover_insufficient_population
        (pop : population T) (n : Z)
        (crossover_function : member T -> member T -> M T)
        (flag : option bool) (queue : draws) :
  (List.length pop < 2)%nat ->
  crossover pop n crossover_function flag queue = Throw InsufficientPopulation.
Proof.
  intro H. unfold crossover.
  destruct (Z.of_nat (List.length pop) <? 2)%Z eqn:G; [reflexivity|].
  apply Z.ltb_ge in G. lia.
Qed.

End Guards.

(** C7 on the one-individual pool of the test suite, with no child
    requested. *)
Lemma crossover_insufficient_population_witness :
  (List.length (evaluated [Example.scored 1 1]) < 2)%nat /\
  crossover (evaluated [Example.scored 1 1]) 0
            (fun parent1 _ => Example.parent_value parent1) (Some true) []
  = Throw InsufficientPopulation.
Proof.
  split; [simpl; lia|].
  apply (crossover_insufficient_population
           (evaluated [Example.scored 1 1]) 0
           (fun parent1 _ => Example.parent_value parent1) (Some true) []).
  simpl. lia.
Defined.

(** C8 on a population of two and a sample of three. *)
Lemma weightedSample_invalid_size_iff_witness :
  exists e,
    weightedSampleWithoutReplacement
      (evaluated [Example.scored 1 1; Example.scored 2 2]) 3 (Some true) []
    = Throw e /\ InvalidSampleSize e.
Proof.
  apply (proj2 (weightedSample_invalid_size_iff
                  [Example.scored 1 1; Example.scored 2 2] 3 (Some true) [])).
  right. simpl. lia.
Defined.

(** ** The stop check of src/scripts/genetic.js *)

Section StopCheck.

Context {T Target : Type}.


End StopCheck.


(** On that population the maximum fitness equals [stop_value], and the
    stop check of genetic.js is false. *)
Lemma stop_check_misses_maximum :
  let pop := [Example.one 3; Example.one 1; Example.one 5; Example.one 1] in
  fittestIndividual (evaluated pop) (Some true) = Ok (Some (Example.one 5)) /\
  Genetic.equals_stop_value Example.until_five (fitness (Example.one 5)) = true /\
  Genetic.stop_condition Example.until_five (evaluated pop) = Ok false.
Proof. vm_compute. repeat split. Qed.

(** ** How the loops end *)

(** In a hypothesis that a sequence of steps ended well, name the result
    of the first step. *)
Tactic Notation "run_step" hyp(H) "as" ident(a) ident(queue) ident(E) :=
  match type of H with
  | context [match ?c with Ok _ => _ | Throw _ => _ | Starved => _ end] =>
      destruct c as [[a queue]| |] eqn:E; try discriminate
  end.

Section GeneticLoop.

Context {T Target : Type}.
Variable m : Genetic.model T Target.
Variable logging_function : list (list (individual T)) -> M unit.
Variable c : Genetic.configuration.

(** Whatever the loop did, [geneticAlgorithm] of genetic.js hands back
    [undefined]: its body has no [return]. *)
Lemma geneticAlgorithm_returns_undefined (queue rest : draws) (r : returned T) :
  Genetic.geneticAlgorithm m logging_function c queue = Ok (r, rest) ->
  r = undefined.
Proof.
  unfold Genetic.geneticAlgorithm, bind. intro H.
  run_step H as pop q0 Init. run_step H as exit q1 Loop.
  unfold ret in H. congruence.
Qed.

(** X13: the loop of genetic.js leaves by [break] at the first generation whose
    least fitness equals [stop_value], and otherwise when the counter
    reaches [generations]; the history holds one evaluated population per
    generation run. *)
Lemma generations_loop_exit (count : nat) :
  forall history pop queue exit rest,
    Genetic.generations_loop m logging_function c count history pop queue
    = Ok (exit, rest) ->
    match exit with
    | Stopped h last =>
        exists earlier,
          h = history ++ earlier ++ [last] /\
          (List.length earlier < count)%nat /\
          Genetic.stop_condition m (evaluated last) = Ok true /\
          Forall (fun p => Genetic.stop_condition m (evaluated p) = Ok false)
                 earlier
    | Exhausted h _ =>
        exists added,
          h = history ++ added /\
          List.length added = count /\
          Forall (fun p => Genetic.stop_condition m (evaluated p) = Ok false)
                 added
    end.
Proof.
  induction count as [|count IH]; intros history pop queue exit rest H.
  - simpl in H. unfold ret in H. injection H as <- <-.
    exists []. rewrite app_nil_r. repeat split. constructor.
  - cbn [Genetic.generations_loop] in H. unfold bind at 1 2 3 in H.
    run_step H as scored q1 Evaluate. run_step H as logged q2 Log.
    unfold lift in H.
    destruct (Genetic.stop_condition m (evaluated scored)) as [[|]| |] eqn:S;
      try discriminate.
    + unfold ret in H. injection H as <- <-.
      exists []. simpl. repeat split; [lia|exact S|constructor].
    + unfold bind at 1 2 3 in H.
      run_step H as mating_pool q3 Select.
      run_step H as children q4 Cross.
      run_step H as mutants q5 Mutate.
      apply IH in H. destruct exit as [h last|h raw].
      * destruct H as [earlier [E [L [St F]]]].
        exists (scored :: earlier). rewrite E, <- app_assoc. simpl.
        repeat split; [lia|exact St|constructor; assumption].
      * destruct H as [added [E [L F]]].
        exists (scored :: added). rewrite E, <- app_assoc. simpl.
        repeat split; [lia|constructor; assumption].
Qed.

End GeneticLoop.

Section GeneticDefaultLoop.

Context {T : Type}.
Variable m : GeneticDefault.model T.
Variable o : GeneticDefault.options T.

(** The default-exported loop leaves by [break] at the first generation
    for which [stop_function] accepts the fitness of the fittest
    individual, and otherwise when the counter reaches [generations]; the
    history holds one evaluated population per generation run. *)
Lemma default_generations_loop_exit (count : nat) :
  forall history pop queue exit rest,
    GeneticDefault.generations_loop m o count history pop queue
    = Ok (exit, rest) ->
    match exit with
    | Stopped h last =>
        exists earlier,
          h = history ++ earlier ++ [last] /\
          (List.length earlier < count)%nat /\
          GeneticDefault.stop_condition m o (evaluated last) = Ok true /\
          Forall (fun p => GeneticDefault.stop_condition m o (evaluated p)
                           = Ok false) earlier
    | Exhausted h _ =>
        exists added,
          h = history ++ added /\
          List.length added = count /\
          Forall (fun p => GeneticDefault.stop_condition m o (evaluated p)
                           = Ok false) added
    end.
Proof.
  induction count as [|count IH]; intros history pop queue exit rest H.
  - simpl in H. unfold ret in H. injection H as <- <-.
    exists []. rewrite app_nil_r. repeat split. constructor.
  - cbn [GeneticDefault.generations_loop] in H. unfold bind at 1 2 3 in H.
    run_step H as scored q1 Evaluate. run_step H as logged q2 Log.
    unfold lift in H.
    destruct (GeneticDefault.stop_condition m o (evaluated scored)) as [[|]| |] eqn:S;
      try discriminate.
    + unfold ret in H. injection H as <- <-.
      exists []. simpl. repeat split; [lia|exact S|constructor].
    + unfold bind at 1 2 3 in H.
      run_step H as mating_pool q3 Select.
      run_step H as children q4 Cross.
      run_step H as mutants q5 Mutate.
      apply IH in H. destruct exit as [h last|h raw].
      * destruct H as [earlier [E [L [St F]]]].
        exists (scored :: earlier). rewrite E, <- app_assoc. simpl.
        repeat split; [lia|exact St|constructor; assumption].
      * destruct H as [added [E [L F]]].
        exists (scored :: added). rewrite E, <- app_assoc. simpl.
        repeat split; [lia|constructor; assumption].
Qed.





End GeneticDefaultLoop.

(** ** Draws and the positions they select *)

Section Draws.


Lemma nth_error_defined {A : Type} (l : list A) (k : nat) :
  (k < List.length l)%nat -> exists x, nth_error l k = Some x.
Proof.
  intro H. destruct (nth_error l k) as [x|] eqn:N; [exists x; reflexivity|].
  apply nth_error_None in N. lia.
Qed.

Variable weights : list Q.
Hypothesis first_positive : forall c, nth_error weights 0 = Some c -> 0 < c.
Hypothesis increasing :
  forall k a b, nth_error weights k = Some a ->
                nth_error weights (S k) = Some b -> a < b.





End Draws.

Section RepeatedDraws.

Lemma first_occurrences_seen (hits seen : list Z) :
  (forall h, In h hits -> In h seen) -> first_occurrences seen hits = [].
Proof.
  induction hits as [|h hits IH]; intro H; [reflexivity|]. simpl.
  assert (I : includes seen h = true) by (apply includes_true, H; left; reflexivity).
  rewrite I. apply IH. intros x Hx. apply H. right. exact Hx.
Qed.

(** Draws that all select the same position yield one accepted index at
    most. *)
Lemma first_occurrences_constant (hits seen : list Z) (i : Z) :
  (forall h, In h hits -> h = i) ->
  (List.length (first_occurrences seen hits) <= 1)%nat.
Proof.
  revert seen. induction hits as [|h hits IH]; intros seen H; [simpl; lia|].
  simpl. destruct (includes seen h).
  - apply IH. intros x Hx. apply H. right. exact Hx.
  - rewrite first_occurrences_seen; [simpl; lia|].
    intros x Hx. apply in_or_app. right. left.
    rewrite (H h) by (left; reflexivity). symmetry. apply H. right. exact Hx.
Qed.

(** X23: with one and the same value drawn again and again, a sample of
    two is never completed, however many draws are supplied. *)
Lemma constant_draws_starve {T : Type} (pop : list (individual T))
      (flag : option bool) (r : Q) (k : nat) :
  (2 <= List.length pop)%nat ->
  weightedSampleWithoutReplacement (evaluated pop) 2 flag (repeat r k) = Starved.
Proof.
  intro L. rewrite weightedSample_runs by lia.
  rewrite randomUniqueIndices_loop_starved; [reflexivity|].
  simpl List.length. rewrite Nat.sub_0_r.
  pose proof (first_occurrences_constant
                (map (selected (weights_of (map fitness pop) flag)) (repeat r k))
                [] (selected (weights_of (map fitness pop) flag) r)) as C.
  assert (Two : Z.to_nat 2 = 2%nat) by reflexivity. rewrite Two.
  apply Nat.lt_succ_r. apply C.
  intros h Hh. apply in_map_iff in Hh. destruct Hh as [x [<- Hx]].
  apply repeat_spec in Hx. subst. reflexivity.
Qed.

End RepeatedDraws.

(** ** The two loops on the example model *)

(** C1, at a failing input: with the example model, two generations and
    the draws they need, the loop of genetic.js runs to its generation
    cap with a history of two evaluated populations, and
    [geneticAlgorithm] hands back [undefined], not [{ history, fittest }]. *)
Theorem geneticAlgorithm_example_returns_undefined :
  let generation := [Example.one 1; Example.one 1; Example.one 1; Example.one 1] in
  let queue := Example.generation_draws ++ Example.generation_draws in
  Genetic.generations_loop Example.ones Example.no_logging Example.two_generations
                           2 [] [1; 1; 1; 1]%Z queue
  = Ok (Exhausted [generation; generation] [1; 1; 1; 1]%Z, []) /\
  Genetic.geneticAlgorithm Example.ones Example.no_logging Example.two_generations
                           queue
  = Ok (undefined, []).
Proof. vm_compute. split; reflexivity. Qed.

(** C2, at a failing input: the example model's [stop_function] accepts
    the fitness of the fittest individual of the first generation, and the
    loop of genetic.js, which compares with the missing [stop_value], goes
    on to the second generation. *)
Theorem generations_loop_example_ignores_stop_function :
  let generation := [Example.one 1; Example.one 1; Example.one 1; Example.one 1] in
  let queue := Example.generation_draws ++ Example.generation_draws in
  fittestIndividual (evaluated generation) None = Ok (Some (Example.one 1)) /\
  Genetic.stop_function Example.ones (fitness (Example.one 1)) = true /\
  Genetic.stop_condition Example.ones (evaluated generation) = Ok false /\
  exists exit,
    Genetic.generations_loop Example.ones Example.no_logging
                             Example.two_generations 2 [] [1; 1; 1; 1]%Z queue
    = Ok (exit, []) /\
    history_of exit = [generation; generation].
Proof.
  vm_compute. repeat split. eexists. split; reflexivity.
Qed.

(** On the same model the default-exported [geneticAlgorithm] stops after
    the first generation and returns the history and the fittest
    individual. *)
Lemma default_example_stops_and_returns :
  let generation := [Example.one 1; Example.one 1; Example.one 1; Example.one 1] in
  GeneticDefault.geneticAlgorithm Example.ones_default
                                  Example.two_generations_default []
  = Ok (record [generation] (Some (Example.one 1)), []).
Proof. vm_compute. reflexivity. Qed.

(** When its generation cap ends the run, the default-exported
    [geneticAlgorithm] reads the fittest individual off the offspring that
    were never evaluated.  The children of this model carry no fitness:
    [fittest] is [undefined]. *)
Lemma default_example_cap_fittest_undefined :
  let generation := [Example.one 1; Example.one 1; Example.one 1; Example.one 1] in
  GeneticDefault.geneticAlgorithm
    Example.never_stops Example.two_generations_default
    (Example.generation_draws ++ Example.generation_draws)
  = Ok (record [generation; generation] None, []).
Proof. vm_compute. reflexivity. Qed.

(** With children that are copies of a parent, [fittest] at the cap is
    such a child: here [{ value: 1, fitness: 1 }], while the fittest
    individual of the one recorded population is [{ value: 5 }]. *)
Lemma default_example_cap_fittest_is_child :
  let generation :=
    [{| props := (1%Z, None); fitness := 1 |}; {| props := (5%Z, None); fitness := 5 |};
     {| props := (1%Z, None); fitness := 1 |}; {| props := (1%Z, None); fitness := 1 |}] in
  GeneticDefault.geneticAlgorithm
    Example.copying Example.one_generation Example.copying_draws
  = Ok (record [generation] (Some {| props := (1%Z, Some 1); fitness := 1 |}), []) /\
  fittestIndividual (evaluated generation) (Some true)
  = Ok (Some {| props := (5%Z, None); fitness := 5 |}).
Proof. vm_compute. split; reflexivity. Qed.

(** ** The expectations of genetic_functions.test.js *)

Section TestSuite.

Import Example.

(** "returned array has expected values when ascending is true" *)
Example table_ascending :
  exists weights,
    relativeCumulativeFitness (evaluated four) (Some true) = Ok weights /\
    map Qred weights = [1 # 10; 3 # 10; 3 # 5; 1].
Proof. eexists. split; [reflexivity|]. vm_compute. reflexivity. Qed.

(** "returned array has expected values when ascending is false" *)
Example table_descending :
  exists weights,
    relativeCumulativeFitness (evaluated four) (Some false) = Ok weights /\
    map Qred weights = [12 # 25; 18 # 25; 22 # 25; 1].
Proof. eexists. split; [reflexivity|]. vm_compute. reflexivity. Qed.

(** "adds abs of the min value + 1 when there are negative values" *)
Example table_negative :
  exists weights,
    relativeCumulativeFitness
      (evaluated [Example.scored 1 1; Example.scored 2 (-2); Example.scored 3 3])
      (Some true) = Ok weights /\
    map Qred weights = [4 # 11; 5 # 11; 1].
Proof. eexists. split; [reflexivity|]. vm_compute. reflexivity. Qed.

(** "the random number is mapped to the correct index" *)
Example indices_in_draw_order :
  randomUniqueIndices [0; 1 # 10; 3 # 10; 6 # 10; 1] 4
                      [5 # 100; 1 # 10; 38 # 100; 95 # 100]
  = Ok ([1; 2; 3; 4]%Z, []).
Proof. reflexivity. Qed.

(** "returns the correct sample when ascending is false" *)
Example sample_descending :
  weightedSampleWithoutReplacement (evaluated four) 3 (Some false)
                                   [1 # 100; 50 # 100; 92 # 100]
  = Ok (evaluated [Example.scored 1 1; Example.scored 2 2; Example.scored 4 4], []).
Proof. vm_compute. reflexivity. Qed.

(** "returns the result of the crossover_function called on pairs" *)
Example crossover_pairs :
  crossover (evaluated four) 2
            (fun parent1 parent2 =>
               a <- Example.parent_value parent1 ;;
               b <- Example.parent_value parent2 ;;
               ret (a + b)%Z)
            (Some true) [0; 2 # 10; 5 # 10; 95 # 100]
  = Ok ([3; 7]%Z, []).
Proof. vm_compute. reflexivity. Qed.

(** "raises an error if n is greater than the population size" *)
Example sample_too_large :
  weightedSampleWithoutReplacement
    (evaluated [Example.scored 1 1; Example.scored 2 2]) 3 (Some true) []
  = Throw (Error "n must be less than or equal to the population size").
Proof. reflexivity. Qed.

(** The same expectations on binary64 numbers, where the test suite
    compares with [toBeCloseTo]: the table of fitness 1, 2, 3, 4 is 0.1,
    0.3, 0.6, 1 up to rounding. *)
Example table_ascending_binary64 :
  Double.relativeCumulativeFitness (Double.evaluated four64) (Some true)
  = Ok [0.1; 0.30000000000000004; 0.6000000000000001; 1]%float.
Proof. vm_compute. reflexivity. Qed.

(** With [ascending = false] the table of these four ends above 1. *)
Example table_descending_binary64 :
  Double.relativeCumulativeFitness (Double.evaluated four64) (Some false)
  = Ok [0.4800000000000001; 0.7200000000000002; 0.8800000000000002;
        1.0000000000000002]%float.
Proof. vm_compute. reflexivity. Qed.

(** "returns the correct sample when ascending is false", on binary64
    numbers. *)
Example sample_descending_binary64 :
  Double.weightedSampleWithoutReplacement (Double.evaluated four64) 3 (Some false)
                                          [0.01; 0.5; 0.92]%float
  = Ok (Double.evaluated [scored64 1 1; scored64 2 2; scored64 4 4], []).
Proof. vm_compute. reflexivity. Qed.

(** A weight that is lost in rounding: for fitness 1 and 1e-20 both
    entries of the table are 1, and no draw selects the second
    individual. *)
Example table_vanishing_weight :
  Double.weights_of [1; 1e-20]%float (Some true) = [1; 1]%float.
Proof. vm_compute. reflexivity. Qed.

(** [Math.floor(population.length * rate)] in binary64: [3 * (1 / 3)] and
    [6 * (1 / 3)] are 1 and 2, [100 * 0.57] is 56.99999999999999. *)
Example floor_of_rounded_product :
  scaled_length (repeat tt 3) (1 / 3)%float = 1%Z /\
  scaled_length (repeat tt 6) (1 / 3)%float = 2%Z /\
  scaled_length (repeat tt 100) 0.57%float = 56%Z /\
  scaled_length (repeat tt 4) 0.2%float = 0%Z /\
  scaled_length (repeat tt 4) 1.5%float = 6%Z.
Proof. vm_compute. repeat split. Qed.

End TestSuite.

(** * Further properties of the code *)

(** ** [randomPopulation], [evaluateFitness] and [mutate] *)

Section Mapping.

(** When an effectful [map] returns, every result comes from its element. *)
Lemma mapM_ok {A B : Type} (f : A -> M B) (array : list A) :
  forall queue results rest,
    mapM f array queue = Ok (results, rest) ->
    Forall2 (fun x y => exists q q', f x q = Ok (y, q')) array results.
Proof.
  induction array as [|x array IH]; intros queue results rest H; simpl in H.
  - unfold ret in H. injection H as <- <-. constructor.
  - unfold bind at 1 in H.
    destruct (f x queue) as [[y q1]| |] eqn:Fx; try discriminate.
    unfold bind at 1 in H.
    destruct (mapM f array q1) as [[ys q2]| |] eqn:Rest; try discriminate.
    unfold ret in H. injection H as <- <-.
    constructor; [exists queue, q1; exact Fx|eapply IH; exact Rest].
Qed.

Lemma Forall2_same_length {A B : Type} (R : A -> B -> Prop) (l : list A) (l' : list B) :
  Forall2 R l l' -> List.length l' = List.length l.
Proof. intro H. symmetry. eapply Forall2_length. exact H. Qed.

Context {T : Type}.

(** X1: when [randomPopulation] returns, it returns exactly [n] individuals
    (none for a negative [n]), each one a result of [creation_function]. *)
Theorem randomPopulation_size (n : Z) (creation_function : M T)
        (queue : draws) (pop : list T) (rest : draws) :
  randomPopulation n creation_function queue = Ok (pop, rest) ->
  List.length pop = Z.to_nat n /\
  Forall (fun i => exists q q', creation_function q = Ok (i, q')) pop.
Proof.
  unfold randomPopulation. intro H. apply mapM_ok in H. split.
  - rewrite (Forall2_same_length _ _ _ H). apply repeat_length.
  - clear - H. remember (repeat tt (Z.to_nat n)) as units. clear Hequnits.
    induction H as [|u i units pop Hi _ IH]; constructor; assumption.
Qed.

(** X2: when [evaluateFitness] returns, the evaluated population is the
    input population in the same order, each individual with a fitness that
    [fitness_function] returned for it. *)
Theorem evaluateFitness_scores {Target : Type} (pop : list T)
        (fitness_function : T -> Target -> M Q) (target_value : Target)
        (queue : draws) (scored : list (individual T)) (rest : draws) :
  evaluateFitness pop fitness_function target_value queue = Ok (scored, rest) ->
  map props scored = pop /\
  Forall (fun s => exists q q',
              fitness_function (props s) target_value q = Ok (fitness s, q'))
         scored.
Proof.
  unfold evaluateFitness. intro H. apply mapM_ok in H.
  induction H as [|i s pop scored [q [q' Hs]] _ [IHp IHf]].
  - split; [reflexivity|constructor].
  - unfold bind in Hs.
    destruct (fitness_function i target_value q) as [[f q1]| |] eqn:F;
      try discriminate.
    unfold ret in Hs. injection Hs as <- <-. simpl. split.
    + rewrite IHp. reflexivity.
    + constructor; [exists q, q1; exact F|exact IHf].
Qed.

(** X3: an exception of the fitness function comes out of
    [evaluateFitness]: for a fitness function that does not draw, the error
    thrown for the first individual it fails on. *)
Theorem evaluateFitness_propagates {Target : Type}
        (score : T -> Target -> outcome Q) (target_value : Target)
        (before after : list T) (i : T) (e : error) (queue : draws) :
  (forall b, In b before -> exists f, score b target_value = Ok f) ->
  score i target_value = Throw e ->
  evaluateFitness (before ++ i :: after)
                  (fun x t => lift (score x t)) target_value queue
  = Throw e.
Proof.
  intros Hb Hi. unfold evaluateFitness.
  induction before as [|b before IH]; simpl.
  - unfold bind, lift. rewrite Hi. reflexivity.
  - destruct (Hb b (or_introl eq_refl)) as [f Hf].
    unfold bind at 1 2. unfold lift at 1. rewrite Hf.
    unfold ret at 1. unfold bind at 1.
    rewrite IH; [reflexivity|].
    intros x Hx. apply Hb. right. exact Hx.
Qed.

(** X4: when [mutate] returns, it returns one mutant per individual, in
    order, each a result of [mutation_function] on that individual with the
    given rate. *)
Theorem mutate_each {A B : Type} (pop : list A)
        (mutation_function : A -> Q -> M B) (mutation_rate : Q)
        (queue : draws) (mutants : list B) (rest : draws) :
  mutate pop mutation_function mutation_rate queue = Ok (mutants, rest) ->
  List.length mutants = List.length pop /\
  Forall2 (fun i m => exists q q',
               mutation_function i mutation_rate q = Ok (m, q'))
          pop mutants.
Proof.
  unfold mutate. intro H. apply mapM_ok in H.
  split; [eapply Forall2_same_length; exact H|exact H].
Qed.

End Mapping.

Lemma randomPopulation_size_witness :
  List.length [1; 1; 1]%Z = Z.to_nat 3 /\
  Forall (fun i => exists q q', ret 1%Z q = Ok (i, q')) [1; 1; 1]%Z.
Proof.
  apply (randomPopulation_size 3 (ret 1%Z) [] [1; 1; 1]%Z []).
  reflexivity.
Defined.

Lemma evaluateFitness_scores_witness :
  map props [Example.one 2; Example.one 5] = [2; 5]%Z /\
  Forall (fun s => exists q q',
              ret (inject_Z (props s)) q = Ok (fitness s, q'))
         [Example.one 2; Example.one 5].
Proof.
  apply (evaluateFitness_scores
           [2; 5]%Z (fun i (_ : unit) => ret (inject_Z i)) tt []
           [Example.one 2; Example.one 5] []).
  reflexivity.
Defined.

(** X3 on a fitness function that fails on negative values. *)
Lemma evaluateFitness_propagates_witness :
  evaluateFitness
    ([3; 4] ++ (-1) :: [5])%Z
    (fun x (t : unit) =>
       lift (if (x <? 0)%Z then Throw (Error "negative")
             else Ok (inject_Z x)))
    tt []
  = Throw (Error "negative").
Proof.
  apply (evaluateFitness_propagates
           (fun x (_ : unit) =>
              if (x <? 0)%Z then Throw (Error "negative") else Ok (inject_Z x))
           tt [3; 4]%Z [5]%Z (-1)%Z (Error "negative") []).
  - intros b [<-|[<-|[]]]; eexists; reflexivity.
  - reflexivity.
Defined.

Lemma mutate_each_witness :
  List.length [2; 4]%Z = List.length [1; 2]%Z /\
  Forall2 (fun i m => exists q q', ret (2 * i)%Z q = Ok (m, q'))
          [1; 2]%Z [2; 4]%Z.
Proof.
  apply (mutate_each [1; 2]%Z (fun i (_ : Q) => ret (2 * i)%Z) (1 # 100)
                     [] [2; 4]%Z []).
  reflexivity.
Defined.

(** ** [randomUniqueIndices] on any array of weights *)

Section Indices.

Lemma findIndex_range {A : Type} (p : A -> bool) (array : list A) :
  (-1 <= findIndex p array < Z.of_nat (List.length array))%Z.
Proof.
  unfold findIndex. destruct (existsb p array) eqn:E.
  - destruct (findIndex_from_found p array 0%Z E) as [k [x [F [N _]]]].
    assert (k < List.length array)%nat by (apply nth_error_Some; congruence).
    lia.
  - rewrite (findIndex_from_none p array 0%Z E). lia.
Qed.

(** What the [while] loop keeps: the indices stay pairwise distinct and
    within [-1 .. length - 1], earlier indices stay in place, the loop stops
    as soon as [n] are collected, and it takes its draws from the front of
    the queue, one at least for each index it adds. *)
Lemma randomUniqueIndices_loop_keeps (weights : list Q) (n : Z) (queue : draws) :
  forall indices result rest,
    randomUniqueIndices_loop weights n indices queue = Ok (result, rest) ->
    NoDup indices ->
    Forall (fun i => (-1 <= i < Z.of_nat (List.length weights))%Z) indices ->
    NoDup result /\
    Forall (fun i => (-1 <= i < Z.of_nat (List.length weights))%Z) result /\
    List.length result = Nat.max (List.length indices) (Z.to_nat n) /\
    exists added used,
      result = indices ++ added /\ queue = used ++ rest /\
      (List.length added <= List.length used)%nat.
Proof.
  induction queue as [|r queue IH]; intros indices result rest H ND Range.
  - simpl in H. destruct (Z.of_nat (List.length indices) <? n)%Z eqn:C;
      [discriminate|].
    injection H as <- <-. apply Z.ltb_ge in C.
    repeat split; try assumption; [lia|].
    exists [], []. rewrite app_nil_r. repeat split. simpl. lia.
  - cbn [randomUniqueIndices_loop] in H.
    destruct (Z.of_nat (List.length indices) <? n)%Z eqn:C.
    + apply Z.ltb_lt in C.
      set (index := findIndex (fun f => Qlt_bool r f) weights) in *.
      destruct (includes indices index) eqn:I; simpl negb in H; cbv iota in H.
      * destruct (IH _ _ _ H ND Range) as [ND' [R' [L' [added [used [E [Q Le]]]]]]].
        repeat split; try assumption.
        exists added, (r :: used). rewrite Q. repeat split; [exact E|simpl; lia].
      * assert (NDi : NoDup (indices ++ [index])).
        { apply NoDup_app; [exact ND|repeat constructor; auto|].
          intros x Hx [<-|[]]. apply includes_true in Hx. congruence. }
        assert (Ri : Forall (fun i => (-1 <= i < Z.of_nat (List.length weights))%Z)
                            (indices ++ [index])).
        { apply Forall_app. split; [exact Range|].
          constructor; [apply findIndex_range|constructor]. }
        destruct (IH _ _ _ H NDi Ri) as [ND' [R' [L' [added [used [E [Q Le]]]]]]].
        rewrite length_app in L'. simpl in L'.
        repeat split; try assumption; [lia|].
        exists (index :: added), (r :: used). rewrite Q, E, <- app_assoc.
        repeat split. simpl. lia.
    + injection H as <- <-. apply Z.ltb_ge in C.
      repeat split; try assumption; [lia|].
      exists [], []. rewrite app_nil_r. repeat split. simpl. lia.
Qed.

(** X5: when [randomUniqueIndices] returns, on any array of weights and
    any draws, it returns exactly [n] pairwise distinct indices, each one a
    position of the array or [-1] (the index of a draw that no weight
    exceeds); it has taken its draws from the front of the queue, one at
    least for each index. *)
Theorem randomUniqueIndices_distinct (weights : list Q) (n : Z)
        (queue : draws) (indices : list Z) (rest : draws) :
  randomUniqueIndices weights n queue = Ok (indices, rest) ->
  Z.of_nat (List.length indices) = n /\
  NoDup indices /\
  Forall (fun i => (-1 <= i < Z.of_nat (List.length weights))%Z) indices /\
  exists used, queue = used ++ rest /\
               (List.length indices <= List.length used)%nat.
Proof.
  unfold randomUniqueIndices. intro H.
  destruct ((n <? 0)%Z || (n >? Z.of_nat (List.length weights))%Z) eqn:G;
    [discriminate|].
  apply orb_false_iff in G. destruct G as [G0 _]. apply Z.ltb_ge in G0.
  destruct (randomUniqueIndices_loop_keeps weights n queue [] indices rest H
              (NoDup_nil Z) (Forall_nil _))
    as [ND [R [L [added [used [E [Q Le]]]]]]].
  simpl in L, E. subst added.
  split; [lia|]. split; [exact ND|]. split; [exact R|].
  exists used. split; [exact Q|exact Le].
Qed.

(** X6: [randomUniqueIndices] throws exactly when [n] is negative or
    greater than the length of the array of weights; the bound is the
    length of the array itself. *)
Theorem randomUniqueIndices_throws_iff (weights : list Q) (n : Z) (queue : draws) :
  (exists e, randomUniqueIndices weights n queue = Throw e)
  <-> (n < 0 \/ Z.of_nat (List.length weights) < n)%Z.
Proof.
  unfold randomUniqueIndices.
  destruct ((n <? 0)%Z || (n >? Z.of_nat (List.length weights))%Z) eqn:G.
  - split; [|intros _; eexists; reflexivity].
    intros _. apply orb_true_iff in G. destruct G as [G|G].
    + left. apply Z.ltb_lt. exact G.
    + right. apply Z.gtb_lt in G. lia.
  - apply orb_false_iff in G. destruct G as [G0 G1].
    apply Z.ltb_ge in G0. rewrite Z.gtb_ltb in G1. apply Z.ltb_ge in G1.
    split; [|lia].
    intros [e H]. exfalso. eapply randomUniqueIndices_loop_no_throw. exact H.
Qed.

End Indices.

(** X5 on a draw that no weight exceeds: the index [-1] is returned. *)
Lemma randomUniqueIndices_distinct_witness :
  Z.of_nat (List.length [1; (-1)]%Z) = 2%Z /\
  NoDup [1; (-1)]%Z /\
  Forall (fun i => (-1 <= i < Z.of_nat (List.length [1 # 4; 1 # 2]))%Z)
         [1; (-1)]%Z /\
  exists used, [3 # 10; 3 # 10; 7 # 10] = used ++ [] /\
               (List.length [1; (-1)]%Z <= List.length used)%nat.
Proof.
  apply (randomUniqueIndices_distinct
           [1 # 4; 1 # 2] 2 [3 # 10; 3 # 10; 7 # 10] [1; (-1)]%Z []).
  reflexivity.
Defined.

Lemma randomUniqueIndices_throws_iff_witness :
  exists e, randomUniqueIndices [1 # 4; 1 # 2] 3 [] = Throw e.
Proof.
  apply (proj2 (randomUniqueIndices_throws_iff [1 # 4; 1 # 2] 3 [])).
  right. simpl. lia.
Defined.

(** ** [crossover] beyond its guard *)

Section Crossover.

Context {T : Type}.

Lemma crossover_loop_count (pop : population T) (count : nat)
      (crossover_function : member T -> member T -> M T) (flag : option bool) :
  forall new_population queue children rest,
    crossover_loop pop count crossover_function flag new_population queue
    = Ok (children, rest) ->
    List.length children = (List.length new_population + count)%nat.
Proof.
  induction count as [|count IH]; intros acc queue children rest H; simpl in H.
  - unfold ret in H. injection H as <- <-. lia.
  - unfold bind at 1 in H.
    destruct (weightedSampleWithoutReplacement pop 2 flag queue)
      as [[sample q1]| |]; try discriminate.
    unfold bind at 1 in H.
    destruct (crossover_function _ _ q1) as [[child q2]| |]; try discriminate.
    apply IH in H. rewrite length_app in H. simpl in H. lia.
Qed.

(** X9: when [crossover] returns, the mating pool had two slots at least
    and the new population has exactly [n] children (none for a negative
    [n]), whatever the crossover function. *)
Theorem crossover_count (pop : population T) (n : Z)
        (crossover_function : member T -> member T -> M T)
        (flag : option bool) (queue : draws) (children : list T) (rest : draws) :
  crossover pop n crossover_function flag queue = Ok (children, rest) ->
  (2 <= List.length pop)%nat /\ List.length children = Z.to_nat n.
Proof.
  unfold crossover. intro H.
  destruct (Z.of_nat (List.length pop) <? 2)%Z eqn:G; [discriminate|].
  apply Z.ltb_ge in G. split; [lia|].
  apply crossover_loop_count in H. simpl in H. exact H.
Qed.

End Crossover.

Lemma crossover_count_witness :
  (2 <= List.length (evaluated Example.four))%nat /\
  List.length [1; 3]%Z = Z.to_nat 2.
Proof.
  apply (crossover_count
           (evaluated Example.four) 2
           (fun parent1 _ => Example.parent_value parent1) (Some true)
           [0; 2 # 10; 5 # 10; 95 # 100] [1; 3]%Z []).
  vm_compute. reflexivity.
Defined.

(** ** The table and the sampler on binary64 numbers *)

Section DoubleTable.

(** A [reduce] that appends one entry for each element. *)
Lemma reduce_from_appends {A B : Type} (entry : list B -> A -> Z -> B)
      (array : list A) :
  forall index acc,
    List.length (reduce_from (fun acc x i => acc ++ [entry acc x i]) array index acc)
    = (List.length acc + List.length array)%nat.
Proof.
  induction array as [|x array IH]; intros index acc; simpl; [lia|].
  rewrite IH, length_app. simpl. lia.
Qed.

(** The table has one entry for each fitness value, whatever the values. *)
Lemma double_weights_of_length (fitness : list float) (flag : option bool) :
  List.length (Double.weights_of fitness flag) = List.length fitness.
Proof.
  unfold Double.weights_of, Double.cumulative_sum, reduce.
  rewrite (reduce_from_appends
             (fun cumulative i index =>
                PrimFloat.add i (Binary64.or_zero (get cumulative (index - 1))))).
  simpl List.length. unfold Double.normalize. rewrite length_map.
  assert (I : forall l, List.length (Double.invert flag l) = List.length l).
  { intro l. unfold Double.invert.
    destruct (negb (truthy flag)); [apply length_map|reflexivity]. }
  assert (Z0 : forall l, List.length (Double.lift_zero l) = List.length l).
  { intro l. unfold Double.lift_zero.
    destruct (existsb _ l); [apply length_map|reflexivity]. }
  assert (N : forall l, List.length (Double.shift_negative l) = List.length l).
  { intro l. unfold Double.shift_negative.
    destruct (existsb _ l); [apply length_map|reflexivity]. }
  rewrite I, Z0, N. reflexivity.
Qed.

Context {T : Type}.

Lemma double_table_evaluated (pop : list (Double.individual T)) (flag : option bool) :
  Double.relativeCumulativeFitness (Double.evaluated pop) flag
  = Ok (Double.weights_of (map Double.fitness pop) flag).
Proof.
  unfold Double.relativeCumulativeFitness.
  assert (E : map_outcome Double.read_fitness (Double.evaluated pop)
              = Ok (map Double.fitness pop)).
  { unfold Double.evaluated.
    induction pop as [|i pop IH]; simpl; [reflexivity|]. rewrite IH. reflexivity. }
  rewrite E. reflexivity.
Qed.

End DoubleTable.

Section DoubleIndices.

Variable weights : list float.
Variable n : Z.

(** One iteration of the [while] loop: [Math.random()], [findIndex], and
    the push of an index that is not included yet. *)
Lemma double_loop_draws (indices : list Z) (queue : Double.draws) :
  Double.randomUniqueIndices_loop weights n indices queue
  = if (Z.of_nat (List.length indices) <? n)%Z
    then Double.bind Double.Math_random
           (fun random_number =>
              let index := findIndex (fun f => PrimFloat.ltb random_number f) weights in
              Double.randomUniqueIndices_loop
                weights n
                (if negb (includes indices index) then indices ++ [index] else indices))
           queue
    else Double.ret indices queue.
Proof.
  destruct queue; simpl; destruct (Z.of_nat (List.length indices) <? n)%Z;
    reflexivity.
Qed.

(** The loop accepts the new indices in the order the draws select them,
    until [n] are collected. *)
Lemma double_loop_accepts (queue : Double.draws) (indices : list Z) :
  (Z.to_nat n - List.length indices
   <= List.length (first_occurrences indices
                                     (map (Double.selected weights) queue)))%nat ->
  exists rest,
    Double.randomUniqueIndices_loop weights n indices queue
    = Ok (indices ++ firstn (Z.to_nat n - List.length indices)
                            (first_occurrences
                               indices (map (Double.selected weights) queue)),
          rest).
Proof.
  revert indices. induction queue as [|r queue IH]; intros indices H.
  - simpl in *. destruct (Z.of_nat (List.length indices) <? n)%Z eqn:C.
    + apply Z.ltb_lt in C. lia.
    + apply Z.ltb_ge in C.
      replace (Z.to_nat n - List.length indices)%nat with O by lia.
      exists []. rewrite app_nil_r. reflexivity.
  - cbn [Double.randomUniqueIndices_loop].
    destruct (Z.of_nat (List.length indices) <? n)%Z eqn:C.
    + apply Z.ltb_lt in C.
      cbn [map first_occurrences] in *.
      destruct (includes indices (Double.selected weights r)) eqn:I;
        simpl negb; cbv iota.
      * apply IH. exact H.
      * destruct (IH (indices ++ [Double.selected weights r])) as [rest E].
        { rewrite length_app. simpl in *. lia. }
        exists rest. rewrite E. f_equal. f_equal.
        rewrite length_app, <- app_assoc. simpl.
        replace (Z.to_nat n - List.length indices)%nat
          with (S (Z.to_nat n - (List.length indices + 1)))%nat by lia.
        reflexivity.
    + apply Z.ltb_ge in C.
      replace (Z.to_nat n - List.length indices)%nat with O by lia.
      exists (r :: queue). rewrite app_nil_r. reflexivity.
Qed.

(** With too few new indices among the draws the loop asks for more. *)
Lemma double_loop_starved (queue : Double.draws) (indices : list Z) :
  (List.length (first_occurrences indices (map (Double.selected weights) queue))
   < Z.to_nat n - List.length indices)%nat ->
  Double.randomUniqueIndices_loop weights n indices queue = Starved.
Proof.
  revert indices. induction queue as [|r queue IH]; intros indices H.
  - simpl in *. destruct (Z.of_nat (List.length indices) <? n)%Z eqn:C;
      [reflexivity|]. apply Z.ltb_ge in C. lia.
  - cbn [Double.randomUniqueIndices_loop].
    destruct (Z.of_nat (List.length indices) <? n)%Z eqn:C.
    + cbn [map first_occurrences] in H.
      destruct (includes indices (Double.selected weights r)) eqn:I;
        simpl negb; cbv iota.
      * apply IH. exact H.
      * apply IH. rewrite length_app. simpl in *. lia.
    + apply Z.ltb_ge in C. lia.
Qed.

(** What the loop keeps: the indices stay pairwise distinct and within
    [-1 .. length - 1], and the loop stops as soon as [n] are collected. *)
Lemma double_loop_keeps (queue : Double.draws) :
  forall indices result rest,
    Double.randomUniqueIndices_loop weights n indices queue = Ok (result, rest) ->
    NoDup indices ->
    Forall (fun i => (-1 <= i < Z.of_nat (List.length weights))%Z) indices ->
    NoDup result /\
    Forall (fun i => (-1 <= i < Z.of_nat (List.length weights))%Z) result /\
    List.length result = Nat.max (List.length indices) (Z.to_nat n).
Proof.
  induction queue as [|r queue IH]; intros indices result rest H ND Range.
  - simpl in H. destruct (Z.of_nat (List.length indices) <? n)%Z eqn:C;
      [discriminate|].
    injection H as <- <-. apply Z.ltb_ge in C.
    repeat split; try assumption. lia.
  - cbn [Double.randomUniqueIndices_loop] in H.
    destruct (Z.of_nat (List.length indices) <? n)%Z eqn:C.
    + apply Z.ltb_lt in C.
      set (index := Double.selected weights r) in *.
      destruct (includes indices index) eqn:I; simpl negb in H; cbv iota in H.
      * apply (IH _ _ _ H ND Range).
      * assert (NDi : NoDup (indices ++ [index])).
        { apply NoDup_app; [exact ND|repeat constructor; auto|].
          intros x Hx [<-|[]]. apply includes_true in Hx. congruence. }
        assert (Ri : Forall (fun i => (-1 <= i < Z.of_nat (List.length weights))%Z)
                            (indices ++ [index])).
        { apply Forall_app. split; [exact Range|].
          constructor; [apply findIndex_range|constructor]. }
        destruct (IH _ _ _ H NDi Ri) as [ND' [R' L']].
        rewrite length_app in L'. simpl in L'.
        repeat split; try assumption. lia.
    + injection H as <- <-. apply Z.ltb_ge in C.
      repeat split; try assumption. lia.
Qed.

End DoubleIndices.

Section DoubleSample.

Context {T : Type}.

(** What the sampler does once its guards are passed. *)
Lemma double_weightedSample_runs (pop : list (Double.individual T)) (n : Z)
      (flag : option bool) (queue : Double.draws) :
  (0 <= n <= Z.of_nat (List.length pop))%Z ->
  Double.weightedSampleWithoutReplacement (Double.evaluated pop) n flag queue
  = match Double.randomUniqueIndices_loop
            (Double.weights_of (map Double.fitness pop) flag) n [] queue with
    | Ok (indices, rest) =>
        Ok (map (fun index => Double.at_index (Double.evaluated pop) index) indices,
            rest)
    | Throw e => Throw e
    | Starved => Starved
    end.
Proof.
  intro R. unfold Double.weightedSampleWithoutReplacement.
  assert (Le : List.length (Double.evaluated pop) = List.length pop)
    by (unfold Double.evaluated; apply length_map).
  rewrite Le.
  destruct (n >? Z.of_nat (List.length pop))%Z eqn:G.
  { apply Z.gtb_lt in G. lia. }
  unfold Double.bind, Double.lift. rewrite double_table_evaluated.
  unfold Double.randomUniqueIndices.
  rewrite double_weights_of_length, length_map.
  destruct (n <? 0)%Z eqn:G0.
  { apply Z.ltb_lt in G0. lia. }
  rewrite G. change (false || false) with false. cbv iota.
  destruct (Double.randomUniqueIndices_loop _ n [] queue) as [[indices rest]| |];
    reflexivity.
Qed.

(** The slot at an index: [undefined] behind the array, an individual
    inside. *)
Lemma double_at_index_slot (pop : list (Double.individual T)) (i : Z) :
  (-1 <= i < Z.of_nat (List.length pop))%Z ->
  slot_at pop i (Double.at_index (Double.evaluated pop) i).
Proof.
  intro R. unfold slot_at, Double.at_index, get.
  destruct (i <? 0)%Z eqn:C.
  - left. apply Z.ltb_lt in C. split; [lia|reflexivity].
  - right. apply Z.ltb_ge in C.
    destruct (nth_error pop (Z.to_nat i)) as [x|] eqn:N.
    + exists (Z.to_nat i), x. split; [lia|]. split; [exact N|].
      unfold Double.evaluated. rewrite nth_error_map, N. reflexivity.
    + apply nth_error_None in N. lia.
Qed.

Lemma double_slots (pop : list (Double.individual T)) (indices : list Z) :
  Forall (fun i => (-1 <= i < Z.of_nat (List.length pop))%Z) indices ->
  Forall2 (slot_at pop) indices
          (map (fun index => Double.at_index (Double.evaluated pop) index) indices).
Proof.
  induction 1 as [|i indices Hi _ IH]; simpl; constructor;
    [apply double_at_index_slot; exact Hi|exact IH].
Qed.

(** A returned sample, read as the indices the loop accepted. *)
Lemma double_weightedSample_ok (pop : list (Double.individual T)) (n : Z)
      (flag : option bool) (queue : Double.draws)
      (sample : Double.population T) (rest : Double.draws) :
  (0 <= n <= Z.of_nat (List.length pop))%Z ->
  Double.weightedSampleWithoutReplacement (Double.evaluated pop) n flag queue
  = Ok (sample, rest) ->
  exists indices,
    sample = map (fun index => Double.at_index (Double.evaluated pop) index) indices /\
    indices
    = firstn (Z.to_nat n)
             (first_occurrences
                [] (map (Double.selected
                           (Double.weights_of (map Double.fitness pop) flag))
                        queue)) /\
    List.length indices = Z.to_nat n /\
    NoDup indices /\
    Forall (fun i => (-1 <= i < Z.of_nat (List.length pop))%Z) indices.
Proof.
  intros R H. rewrite double_weightedSample_runs in H by exact R.
  set (weights := Double.weights_of (map Double.fitness pop) flag) in *.
  destruct (Double.randomUniqueIndices_loop weights n [] queue)
    as [[indices rest']| |] eqn:L; try discriminate.
  injection H as <- <-.
  exists indices. split; [reflexivity|].
  destruct (double_loop_keeps weights n queue [] indices rest' L
                              (NoDup_nil Z) (Forall_nil _)) as [ND [Range Len]].
  simpl in Len.
  assert (Lw : List.length weights = List.length pop).
  { unfold weights. rewrite double_weights_of_length. apply length_map. }
  rewrite Lw in Range.
  split; [|auto].
  destruct (Nat.lt_ge_cases
              (List.length (first_occurrences
                              [] (map (Double.selected weights) queue)))
              (Z.to_nat n)) as [Few|Enough].
  - rewrite double_loop_starved in L; [discriminate|].
    simpl List.length. rewrite Nat.sub_0_r. exact Few.
  - destruct (double_loop_accepts weights n queue []) as [rest'' E].
    { simpl. rewrite Nat.sub_0_r. exact Enough. }
    simpl in E. rewrite Nat.sub_0_r in E. rewrite E in L.
    injection L as <- _. reflexivity.
Qed.

(** X24: for an evaluated population and a sample size [n] between 0 and
    the population size, once the draws have selected [n] different indices
    of the table, [weightedSampleWithoutReplacement] returns exactly [n]
    slots.  They are taken at pairwise distinct indices, in the order in
    which the draws first selected those indices; the slot of an index
    [0 .. size - 1] is the individual at that position, and the slot of the
    index [-1], which a draw that no entry of the table exceeds selects, is
    [undefined].  So the individuals of a sample sit at distinct positions,
    and at most one slot is [undefined]. *)
Theorem weightedSample_slots_in_draw_order
        (pop : list (Double.individual T)) (n : Z) (flag : option bool)
        (queue : Double.draws) :
  (0 <= n <= Z.of_nat (List.length pop))%Z ->
  (Z.to_nat n
   <= List.length
        (first_occurrences
           [] (map (Double.selected (Double.weights_of (map Double.fitness pop) flag))
                   queue)))%nat ->
  exists sample indices rest,
    Double.weightedSampleWithoutReplacement (Double.evaluated pop) n flag queue
    = Ok (sample, rest) /\
    Z.of_nat (List.length sample) = n /\
    Forall2 (slot_at pop) indices sample /\
    NoDup indices /\
    indices
    = firstn (Z.to_nat n)
             (first_occurrences
                [] (map (Double.selected
                           (Double.weights_of (map Double.fitness pop) flag))
                        queue)).
Proof.
  intros R Enough.
  destruct (double_loop_accepts
              (Double.weights_of (map Double.fitness pop) flag) n queue [])
    as [rest E].
  { simpl. rewrite Nat.sub_0_r. exact Enough. }
  assert (H : exists sample,
             Double.weightedSampleWithoutReplacement (Double.evaluated pop) n flag queue
             = Ok (sample, rest)).
  { rewrite double_weightedSample_runs by exact R. rewrite E.
    eexists. reflexivity. }
  destruct H as [sample H].
  destruct (double_weightedSample_ok pop n flag queue sample rest R H)
    as [indices [-> [Order [Len [ND Range]]]]].
  exists (map (fun index => Double.at_index (Double.evaluated pop) index) indices),
    indices, rest.
  split; [exact H|]. split; [rewrite length_map; lia|].
  split; [apply double_slots; exact Range|]. split; [exact ND|exact Order].
Qed.



(** X7: for a sample size in range, [weightedSampleWithoutReplacement]
    returns exactly when the draws select at least [n] different indices of
    the table, the index [-1] of a draw that no entry exceeds counting as
    one; with fewer, it goes on drawing. *)
Theorem weightedSample_returns_iff_indices
        (pop : list (Double.individual T)) (n : Z) (flag : option bool)
        (queue : Double.draws) :
  (0 <= n <= Z.of_nat (List.length pop))%Z ->
  ((exists sample rest,
       Double.weightedSampleWithoutReplacement (Double.evaluated pop) n flag queue
       = Ok (sample, rest))
   <-> (Z.to_nat n
        <= List.length
             (first_occurrences
                [] (map (Double.selected
                           (Double.weights_of (map Double.fitness pop) flag))
                        queue)))%nat)
  /\
  ((Z.to_nat n
    > List.length
        (first_occurrences
           [] (map (Double.selected
                      (Double.weights_of (map Double.fitness pop) flag))
                   queue)))%nat ->
   Double.weightedSampleWithoutReplacement (Double.evaluated pop) n flag queue
   = Starved).
Proof.
  intro R.
  assert (Few : (Z.to_nat n
                 > List.length
                     (first_occurrences
                        [] (map (Double.selected
                                   (Double.weights_of (map Double.fitness pop) flag))
                                queue)))%nat ->
                Double.weightedSampleWithoutReplacement
                  (Double.evaluated pop) n flag queue = Starved).
  { intro Few. rewrite double_weightedSample_runs by exact R.
    rewrite double_loop_starved; [reflexivity|].
    simpl List.length. rewrite Nat.sub_0_r. exact Few. }
  split; [split|exact Few].
  - intros [sample [rest H]]. apply Nat.nlt_ge. intro Lt.
    rewrite (Few Lt) in H. discriminate.
  - intro Enough. rewrite double_weightedSample_runs by exact R.
    destruct (double_loop_accepts
                (Double.weights_of (map Double.fitness pop) flag) n queue [])
      as [rest E].
    { simpl. rewrite Nat.sub_0_r. exact Enough. }
    rewrite E. eexists. eexists. reflexivity.
Qed.

Lemma NoDup_to_nat (l : list Z) :
  NoDup l -> Forall (fun i => (0 <= i)%Z) l -> NoDup (map Z.to_nat l).
Proof.
  induction 1 as [|i l Ni _ IH]; intro Pos; simpl; [constructor|].
  inversion Pos as [|? ? Pi Pos']. subst.
  constructor; [|apply IH; exact Pos'].
  intro Hin. apply Ni. apply in_map_iff in Hin. destruct Hin as [j [Ej Hj]].
  rewrite Forall_forall in Pos'. specialize (Pos' j Hj).
  assert (i = j) by lia. subst. exact Hj.
Qed.

(** The slots of all positions, in order, are the population. *)
Lemma slots_of_all_positions {A : Type} (l : list (option A)) :
  map (fun k => match nth_error l k with Some slot => slot | None => None end)
      (seq 0 (List.length l))
  = l.
Proof.
  induction l as [|a l IH]; [reflexivity|].
  simpl List.length. rewrite <- cons_seq, <- seq_shift, map_cons, map_map.
  simpl. f_equal. exact IH.
Qed.

(** X8: a returned sample of the size of the population holds an
    [undefined] slot or is the population in another order, every
    individual exactly once. *)
Theorem weightedSample_whole_population_or_undefined
        (pop : list (Double.individual T)) (flag : option bool)
        (queue : Double.draws) (sample : Double.population T) (rest : Double.draws) :
  Double.weightedSampleWithoutReplacement
    (Double.evaluated pop) (Z.of_nat (List.length pop)) flag queue
  = Ok (sample, rest) ->
  In None sample \/ Permutation.Permutation sample (Double.evaluated pop).
Proof.
  intro H.
  destruct (double_weightedSample_ok
              pop (Z.of_nat (List.length pop)) flag queue sample rest
              ltac:(lia) H) as [indices [-> [_ [Len [ND Range]]]]].
  rewrite Nat2Z.id in Len.
  destruct (in_dec Z.eq_dec (-1)%Z indices) as [Out|Inside].
  - left. apply in_map_iff. exists (-1)%Z. split; [reflexivity|exact Out].
  - right.
    assert (Pos : Forall (fun i => (0 <= i < Z.of_nat (List.length pop))%Z) indices).
    { apply Forall_forall. intros i Hi. rewrite Forall_forall in Range.
      specialize (Range i Hi).
      assert (i <> (-1)%Z) by (intros ->; contradiction). lia. }
    assert (E : map (fun index => Double.at_index (Double.evaluated pop) index) indices
                = map (fun k => match nth_error (Double.evaluated pop) k with
                                | Some slot => slot
                                | None => None
                                end)
                      (map Z.to_nat indices)).
    { rewrite map_map. apply map_ext_in. intros i Hi.
      rewrite Forall_forall in Pos. specialize (Pos i Hi).
      unfold Double.at_index, get.
      destruct (i <? 0)%Z eqn:C; [apply Z.ltb_lt in C; lia|reflexivity]. }
    rewrite E.
    assert (Lp : List.length (Double.evaluated pop) = List.length pop)
      by (unfold Double.evaluated; apply length_map).
    enough (P : Permutation.Permutation
                  (map Z.to_nat indices)
                  (seq 0 (List.length (Double.evaluated pop)))).
    { apply (Permutation.Permutation_map
               (fun k => match nth_error (Double.evaluated pop) k with
                         | Some slot => slot
                         | None => None
                         end)) in P.
      exact (eq_rect _ (Permutation.Permutation _) P _
                     (slots_of_all_positions (Double.evaluated pop))). }
    rewrite Lp.
    apply Permutation.NoDup_Permutation_bis.
    + apply NoDup_to_nat; [exact ND|].
      eapply Forall_impl; [|exact Pos]. simpl. intros i Hi. lia.
    + rewrite length_seq, length_map. lia.
    + intros k Hk. apply in_map_iff in Hk. destruct Hk as [i [<- Hi]].
      rewrite Forall_forall in Pos. specialize (Pos i Hi).
      apply in_seq. lia.
Qed.

(** The children of the [for] loop of [crossover], for a crossover
    function that does not draw. *)
Lemma double_crossover_loop_parents (pop : list (Double.individual T)) (count : nat)
      (combine : Double.member T -> Double.member T -> T) (flag : option bool) :
  (2 <= List.length pop)%nat ->
  forall new_population queue children rest,
    Double.crossover_loop (Double.evaluated pop) count
                          (fun parent1 parent2 => Double.ret (combine parent1 parent2))
                          flag new_population queue
    = Ok (children, rest) ->
    exists added,
      children = new_population ++ added /\
      Forall (fun child =>
                exists i j parent1 parent2,
                  i <> j /\ slot_at pop i parent1 /\ slot_at pop j parent2 /\
                  child = combine parent1 parent2) added.
Proof.
  intro Two.
  induction count as [|count IH]; intros acc queue children rest H; simpl in H.
  - unfold Double.ret in H. injection H as <- <-.
    exists []. rewrite app_nil_r. split; [reflexivity|constructor].
  - unfold Double.bind at 1 in H.
    destruct (Double.weightedSampleWithoutReplacement (Double.evaluated pop) 2 flag queue)
      as [[sample q1]| |] eqn:S; try discriminate.
    unfold Double.bind at 1, Double.ret at 1 in H.
    destruct (double_weightedSample_ok pop 2 flag queue sample q1 ltac:(lia) S)
      as [indices [-> [_ [Len [ND Range]]]]].
    destruct indices as [|i [|j [|k indices]]]; try discriminate.
    inversion ND as [|? ? Nij _]. inversion Range as [|? ? Ri Range'].
    inversion Range' as [|? ? Rj _]. subst.
    destruct (IH _ _ _ _ H) as [added [E F]].
    exists (combine (Double.at_index (Double.evaluated pop) i)
                    (Double.at_index (Double.evaluated pop) j) :: added).
    split.
    + rewrite E, <- app_assoc. reflexivity.
    + constructor; [|exact F].
      exists i, j, (Double.at_index (Double.evaluated pop) i),
        (Double.at_index (Double.evaluated pop) j).
      split; [intro Eij; apply Nij; left; symmetry; exact Eij|].
      split; [apply double_at_index_slot; exact Ri|].
      split; [apply double_at_index_slot; exact Rj|reflexivity].
Qed.

(** X10: every child [crossover] returns is the crossover function applied
    to the slots at two different indices of the mating pool: two
    individuals at different positions, or one individual and the
    [undefined] of the index [-1].  Stated for an evaluated pool and a
    crossover function that does not draw. *)
Theorem crossover_parents_at_different_indices
        (pop : list (Double.individual T)) (n : Z)
        (combine : Double.member T -> Double.member T -> T) (flag : option bool)
        (queue : Double.draws) (children : list T) (rest : Double.draws) :
  Double.crossover (Double.evaluated pop) n
                   (fun parent1 parent2 => Double.ret (combine parent1 parent2))
                   flag queue
  = Ok (children, rest) ->
  Forall (fun child =>
            exists i j parent1 parent2,
              i <> j /\ slot_at pop i parent1 /\ slot_at pop j parent2 /\
              child = combine parent1 parent2) children.
Proof.
  intro H. unfold Double.crossover in H.
  destruct (Z.of_nat (List.length (Double.evaluated pop)) <? 2)%Z eqn:G;
    [discriminate|].
  apply Z.ltb_ge in G. unfold Double.evaluated in G. rewrite length_map in G.
  destruct (double_crossover_loop_parents pop (Z.to_nat n) combine flag ltac:(lia)
              [] queue children rest H) as [added [-> F]].
  exact F.
Qed.

End DoubleSample.



(** The sample of that test: the individuals of positions 0 and 2. *)
Lemma weightedSample_test_sample_binary64 :
  Double.weightedSampleWithoutReplacement
    (Double.evaluated Example.four64) 2 (Some true) [0.01; 0.05; 0.38]%float
  = Ok (Double.evaluated [Example.scored64 1 1; Example.scored64 3 3], []).
Proof. vm_compute. reflexivity. Qed.

(** X24 on seven individuals of equal fitness and the draws
    0.9999999999999998 and 0.95: the indices [-1] and 6 are accepted in
    that order, and the sample is [undefined] and the last individual. *)
Lemma weightedSample_slots_in_draw_order_witness :
  let queue := [Example.below_one; 0.95%float] in
  exists sample indices rest,
    Double.weightedSampleWithoutReplacement
      (Double.evaluated Example.seven_equal) 2 (Some true) queue
    = Ok (sample, rest) /\
    Z.of_nat (List.length sample) = 2%Z /\
    Forall2 (slot_at Example.seven_equal) indices sample /\
    NoDup indices /\
    indices
    = firstn (Z.to_nat 2)
             (first_occurrences
                [] (map (Double.selected
                           (Double.weights_of
                              (map Double.fitness Example.seven_equal) (Some true)))
                        queue)).
Proof.
  apply (weightedSample_slots_in_draw_order
           Example.seven_equal 2 (Some true) [Example.below_one; 0.95%float]).
  - simpl. lia.
  - vm_compute. lia.
Defined.

(** The sample of that run. *)
Lemma weightedSample_undefined_then_last :
  Double.weightedSampleWithoutReplacement
    (Double.evaluated Example.seven_equal) 2 (Some true)
    [Example.below_one; 0.95%float]
  = Ok ([None; Some (Example.scored64 6 1)], []).
Proof. vm_compute. reflexivity. Qed.

(** X7 on seven individuals of equal fitness and the draws
    0.9999999999999998 and 0.95, which select one position only: with the
    index [-1] there are two different indices, and the sampler returns. *)
Lemma weightedSample_returns_iff_indices_witness :
  ((exists sample rest,
       Double.weightedSampleWithoutReplacement
         (Double.evaluated Example.seven_equal) 2 (Some true)
         [Example.below_one; 0.95%float]
       = Ok (sample, rest))
   <-> (Z.to_nat 2
        <= List.length
             (first_occurrences
                [] (map (Double.selected
                           (Double.weights_of
                              (map Double.fitness Example.seven_equal) (Some true)))
                        [Example.below_one; 0.95%float])))%nat)
  /\
  ((Z.to_nat 2
    > List.length
        (first_occurrences
           [] (map (Double.selected
                      (Double.weights_of
                         (map Double.fitness Example.seven_equal) (Some true)))
                   [Example.below_one; 0.95%float])))%nat ->
   Double.weightedSampleWithoutReplacement
     (Double.evaluated Example.seven_equal) 2 (Some true)
     [Example.below_one; 0.95%float]
   = Starved).
Proof.
  apply (weightedSample_returns_iff_indices
           Example.seven_equal 2 (Some true) [Example.below_one; 0.95%float]).
  simpl. lia.
Defined.

(** X8 on seven individuals of equal fitness: with a first draw
    0.9999999999999998 the sample of seven holds [undefined] and misses
    the last individual. *)
Lemma weightedSample_whole_population_or_undefined_witness :
  let sample :=
    None :: map (fun v => Some (Example.scored64 v 1)) [0; 1; 2; 3; 4; 5]%Z in
  In None sample \/
  Permutation.Permutation sample (Double.evaluated Example.seven_equal).
Proof.
  apply (weightedSample_whole_population_or_undefined
           Example.seven_equal (Some true)
           [Example.below_one; 0.1; 0.2; 0.3; 0.5; 0.6; 0.8]%float
           (None :: map (fun v => Some (Example.scored64 v 1)) [0; 1; 2; 3; 4; 5]%Z)
           []).
  vm_compute. reflexivity.
Defined.

(** X10 on seven individuals of equal fitness and the draws
    0.9999999999999998 and 0.1: the one child is made from [undefined] and
    the first individual. *)
Lemma crossover_parents_at_different_indices_witness :
  let combine := fun p1 p2 : Double.member Z =>
                   match p1, p2 with
                   | Some x, Some y => (Double.props x + Double.props y)%Z
                   | None, Some y => (- 1 - Double.props y)%Z
                   | _, None => (-100)%Z
                   end in
  Forall (fun child =>
            exists i j parent1 parent2,
              i <> j /\ slot_at Example.seven_equal i parent1 /\
              slot_at Example.seven_equal j parent2 /\
              child = combine parent1 parent2)
         [(-1)%Z].
Proof.
  apply (crossover_parents_at_different_indices
           Example.seven_equal 1
           (fun p1 p2 : Double.member Z =>
              match p1, p2 with
              | Some x, Some y => (Double.props x + Double.props y)%Z
              | None, Some y => (- 1 - Double.props y)%Z
              | _, None => (-100)%Z
              end)
           (Some true) [Example.below_one; 0.1%float] [(-1)%Z] []).
  vm_compute. reflexivity.
Defined.

(** ** More on the table of [relativeCumulativeFitness] *)

Section TableMore.

Context {T : Type}.


Lemma shift_negative_positive (fitness : list Q) :
  Forall (fun v => 0 < v) fitness -> shift_negative fitness = fitness.
Proof.
  intro H. unfold shift_negative.
  destruct (existsb _ fitness) eqn:Ex; [|reflexivity].
  destruct (existsb_negative _ Ex) as [v [Hin Hv]].
  rewrite Forall_forall in H. specialize (H v Hin). simpl in H. lra.
Qed.

Lemma lift_zero_positive (fitness : list Q) :
  Forall (fun v => 0 < v) fitness -> lift_zero fitness = fitness.
Proof.
  intro H. unfold lift_zero.
  destruct (existsb _ fitness) eqn:Ex; [|reflexivity].
  apply existsb_exists in Ex. destruct Ex as [v [Hin Hv]].
  apply Qeq_bool_iff in Hv.
  rewrite Forall_forall in H. specialize (H v Hin). simpl in H. lra.
Qed.


End TableMore.



Lemma constant_draws_starve_witness :
  weightedSampleWithoutReplacement
    (evaluated Example.four) 2 (Some true) (repeat (1 # 100) 1000)
  = Starved.
Proof.
  apply (constant_draws_starve Example.four (Some true) (1 # 100) 1000).
  simpl. lia.
Defined.

(** ** Selection and reproduction in the loops *)

Section Reproduction.

Context {T : Type}.

Lemma mutate_each_length {A B : Type} (pop : list A)
      (mutation_function : A -> Q -> M B) (mutation_rate : Q)
      (queue : draws) (mutants : list B) (rest : draws) :
  mutate pop mutation_function mutation_rate queue = Ok (mutants, rest) ->
  List.length mutants = List.length pop.
Proof.
  unfold mutate. intro H. apply mapM_ok in H.
  eapply Forall2_same_length. exact H.
Qed.

(** The guard of [crossover]. *)
Lemma crossover_insufficient_population_pool (pool : population T) (n : Z)
      (crossover_function : member T -> member T -> M T)
      (flag : option bool) (queue : draws) :
  (List.length pool < 2)%nat ->
  crossover pool n crossover_function flag queue = Throw InsufficientPopulation.
Proof.
  intro H. unfold crossover.
  destruct (Z.of_nat (List.length pool) <? 2)%Z eqn:G; [reflexivity|].
  apply Z.ltb_ge in G. lia.
Qed.

(** A mating pool of fewer than two survivors is drawn without trouble. *)
Lemma small_sample (scored : list (individual T)) (n : Z) (flag : option bool)
      (queue : draws) :
  (0 <= n < 2)%Z -> (n <= Z.of_nat (List.length scored))%Z -> queue <> [] ->
  exists sample rest,
    weightedSampleWithoutReplacement (evaluated scored) n flag queue
    = Ok (sample, rest) /\
    (List.length sample < 2)%nat.
Proof.
  intros R L NE. rewrite weightedSample_runs by lia.
  rewrite randomUniqueIndices_loop_draws.
  assert (C : n = 0%Z \/ n = 1%Z) by lia. destruct C as [->| ->].
  - simpl. eexists. eexists. split; [reflexivity|simpl; lia].
  - destruct queue as [|r queue]; [congruence|].
    simpl Z.ltb. cbv iota. unfold bind, Math_random.
    rewrite randomUniqueIndices_loop_draws. simpl.
    eexists. eexists. split; [reflexivity|simpl; lia].
Qed.

Lemma evaluateFitness_length {Target : Type} (pop : list T)
      (fitness_function : T -> Target -> M Q) (target_value : Target)
      (queue : draws) (scored : list (individual T)) (rest : draws) :
  evaluateFitness pop fitness_function target_value queue = Ok (scored, rest) ->
  List.length scored = List.length pop.
Proof.
  unfold evaluateFitness. intro H. apply mapM_ok in H.
  eapply Forall2_same_length. exact H.
Qed.

(** The offspring of one generation: [Math.floor(size * rate)] children. *)
Lemma offspring_count (pool : population T) (scored : list (individual T))
      (rate : float) (mutation_rate : Q)
      (crossover_function : member T -> member T -> M T)
      (mutation_function : T -> Q -> M T) (flag : option bool)
      (q3 q4 q5 : draws) (children mutants : list T) :
  crossover pool (scaled_length scored rate) crossover_function flag q3
  = Ok (children, q4) ->
  mutate children mutation_function mutation_rate q4 = Ok (mutants, q5) ->
  List.length mutants = Z.to_nat (scaled_length scored rate).
Proof.
  intros Cross Mutate.
  unfold crossover in Cross.
  destruct (Z.of_nat (List.length pool) <? 2)%Z; [discriminate|].
  apply crossover_loop_count in Cross. simpl in Cross.
  apply mutate_each_length in Mutate. lia.
Qed.

End Reproduction.

(** ** The loop of src/scripts/genetic.js, generation by generation *)

Section GeneticGenerations.

Context {T Target : Type}.
Variable m : Genetic.model T Target.
Variable logging_function : list (list (individual T)) -> M unit.
Variable c : Genetic.configuration.

(** X15: the loop of genetic.js does not keep the population size: the
    first population it pushes to the history has the size of the initial
    population, and each next one has [Math.floor(size * reproduction_rate)]
    individuals for the [size] of the population before. *)
Theorem generations_loop_sizes (count : nat) :
  forall history pop queue exit rest,
    Genetic.generations_loop m logging_function c count history pop queue
    = Ok (exit, rest) ->
    exists added,
      history_of exit = history ++ added /\
      generation_sizes (List.length pop) (Genetic.reproduction_rate c) added.
Proof.
  induction count as [|count IH]; intros history pop queue exit rest H.
  - simpl in H. unfold ret in H. injection H as <- <-.
    exists []. simpl. rewrite app_nil_r. split; [reflexivity|exact I].
  - cbn [Genetic.generations_loop] in H. unfold bind at 1 2 3 in H.
    run_step H as scored q1 Evaluate. run_step H as logged q2 Log.
    apply evaluateFitness_length in Evaluate.
    unfold lift in H.
    destruct (Genetic.stop_condition m (evaluated scored)) as [[|]| |];
      try discriminate.
    + unfold ret in H. injection H as <- <-.
      exists [scored]. simpl. auto.
    + unfold bind at 1 2 3 in H.
      run_step H as mating_pool q3 Select.
      run_step H as children q4 Cross.
      run_step H as mutants q5 Mutate.
      pose proof (offspring_count _ _ _ _ _ _ _ _ _ _ _ _ Cross Mutate) as Lm.
      destruct (IH _ _ _ _ _ H) as [added [E S]].
      exists (scored :: added). rewrite E, <- app_assoc. simpl.
      rewrite Lm in S. auto.
Qed.

(** X16: a generation whose stop check is false and whose number of
    survivors [Math.floor(size * survival_rate)] is 0 or 1 ends the run of
    genetic.js with the error of [crossover], "population size must be
    greater than 1" (as long as [Math.random] has a draw to give). *)
Theorem generations_loop_small_pool_throws (count : nat)
        (history : list (list (individual T))) (pop : list T)
        (queue q1 q2 : draws) (scored : list (individual T)) :
  evaluateFitness pop (Genetic.fitness_function m) (Genetic.target_value m) queue
  = Ok (scored, q1) ->
  logging_function (history ++ [scored]) q1 = Ok (tt, q2) ->
  Genetic.stop_condition m (evaluated scored) = Ok false ->
  (0 <= scaled_length scored (Genetic.survival_rate c) < 2)%Z ->
  q2 <> [] ->
  Genetic.generations_loop m logging_function c (S count) history pop queue
  = Throw InsufficientPopulation.
Proof.
  intros Evaluate Log Stop Few NE.
  assert (L : (scaled_length scored (Genetic.survival_rate c)
               <= Z.of_nat (List.length scored))%Z).
  { destruct scored; [discriminate Stop|]. simpl List.length. lia. }
  destruct (small_sample scored _ None q2 Few L NE) as [sample [q3 [E Ls]]].
  cbn [Genetic.generations_loop]. unfold bind at 1. rewrite Evaluate.
  unfold bind at 1. rewrite Log.
  unfold bind at 1, lift. rewrite Stop.
  unfold bind at 1. rewrite E.
  unfold bind at 1.
  rewrite (crossover_insufficient_population_pool sample _ _ None q3 Ls).
  reflexivity.
Qed.

End GeneticGenerations.

(** X13 on the example model: the run of two generations ends at the cap
    with the stop check false twice. *)
Lemma generations_loop_exit_witness :
  let generation := [Example.one 1; Example.one 1; Example.one 1; Example.one 1] in
  exists added,
    [generation; generation] = [] ++ added /\
    List.length added = 2%nat /\
    Forall (fun p => Genetic.stop_condition Example.ones (evaluated p) = Ok false)
           added.
Proof.
  apply (generations_loop_exit
           Example.ones Example.no_logging Example.two_generations 2
           [] [1; 1; 1; 1]%Z
           (Example.generation_draws ++ Example.generation_draws)
           (Exhausted [[Example.one 1; Example.one 1; Example.one 1; Example.one 1];
                       [Example.one 1; Example.one 1; Example.one 1; Example.one 1]]
                      [1; 1; 1; 1]%Z)
           []).
  vm_compute. reflexivity.
Defined.

(** X15 with [reproduction_rate = 1.5]: four individuals, then six. *)
Lemma generations_loop_sizes_witness :
  exists added,
    [repeat (Example.one 1) 4; repeat (Example.one 1) 6] = [] ++ added /\
    generation_sizes 4 1.5%float added.
Proof.
  apply (generations_loop_sizes
           Example.ones Example.no_logging Example.growing 2
           [] [1; 1; 1; 1]%Z Example.growing_draws
           (Exhausted [repeat (Example.one 1) 4; repeat (Example.one 1) 6]
                      (repeat 1%Z 9))
           []).
  vm_compute. reflexivity.
Defined.

(** X16 with the default configuration ([survival_rate = 0.2]) on four
    individuals: no survivor, and [crossover] throws. *)
Lemma generations_loop_small_pool_throws_witness :
  Genetic.generations_loop Example.ones Example.no_logging
                           Genetic.default_configuration 1 []
                           [1; 1; 1; 1]%Z [1 # 2]
  = Throw InsufficientPopulation.
Proof.
  apply (generations_loop_small_pool_throws
           Example.ones Example.no_logging Genetic.default_configuration 0
           [] [1; 1; 1; 1]%Z [1 # 2] [1 # 2] [1 # 2]
           [Example.one 1; Example.one 1; Example.one 1; Example.one 1]).
  - reflexivity.
  - reflexivity.
  - vm_compute. reflexivity.
  - vm_compute. split; [discriminate|reflexivity].
  - discriminate.
Defined.

(** ** The default-exported loop, generation by generation *)

Section DefaultGenerations.

Context {T : Type}.
Variable m : GeneticDefault.model T.
Variable o : GeneticDefault.options T.

Lemma default_generations_loop_sizes (count : nat) :
  forall history pop queue exit rest,
    GeneticDefault.generations_loop m o count history pop queue
    = Ok (exit, rest) ->
    exists added,
      history_of exit = history ++ added /\
      generation_sizes (List.length pop) (GeneticDefault.reproduction_rate o) added.
Proof.
  induction count as [|count IH]; intros history pop queue exit rest H.
  - simpl in H. unfold ret in H. injection H as <- <-.
    exists []. simpl. rewrite app_nil_r. split; [reflexivity|exact I].
  - cbn [GeneticDefault.generations_loop] in H. unfold bind at 1 2 3 in H.
    run_step H as scored q1 Evaluate. run_step H as logged q2 Log.
    apply evaluateFitness_length in Evaluate.
    unfold lift in H.
    destruct (GeneticDefault.stop_condition m o (evaluated scored)) as [[|]| |];
      try discriminate.
    + unfold ret in H. injection H as <- <-.
      exists [scored]. simpl. auto.
    + unfold bind at 1 2 3 in H.
      run_step H as mating_pool q3 Select.
      run_step H as children q4 Cross.
      run_step H as mutants q5 Mutate.
      pose proof (offspring_count _ _ _ _ _ _ _ _ _ _ _ _ Cross Mutate) as Lm.
      destruct (IH _ _ _ _ _ H) as [added [E S]].
      exists (scored :: added). rewrite E, <- app_assoc. simpl.
      rewrite Lm in S. auto.
Qed.

(** What [geneticAlgorithm] returns, read off the exit of its loop. *)
Lemma default_geneticAlgorithm_history (queue rest : draws) (r : returned T) :
  GeneticDefault.geneticAlgorithm m o queue = Ok (r, rest) ->
  exists pop q0 exit q1 fittest,
    GeneticDefault.creation_function m (GeneticDefault.population_size o) queue
    = Ok (pop, q0) /\
    GeneticDefault.generations_loop
      m o (Z.to_nat (GeneticDefault.generations o)) [] pop q0
    = Ok (exit, q1) /\
    r = record (history_of exit) fittest.
Proof.
  unfold GeneticDefault.geneticAlgorithm. unfold bind at 1 2. intro H.
  run_step H as pop q0 Init. run_step H as exit q1 Loop.
  exists pop, q0, exit, q1.
  destruct exit as [h last|h raw].
  - unfold bind, lift in H.
    destruct (fittestIndividual (evaluated last) _) as [fittest| |];
      try discriminate.
    unfold ret in H. injection H as <- <-. exists fittest. auto.
  - unfold bind, lift in H.
    destruct (GeneticDefault.fittest_unevaluated m raw _) as [fittest| |];
      try discriminate.
    unfold ret in H. injection H as <- <-. exists fittest. auto.
Qed.

(** X18: the history the default-exported [geneticAlgorithm] returns ends
    at the first population whose fittest fitness [stop_function] accepts,
    or has [generations] populations when there is none: [stop_function]
    rejects every population before the last, and either it accepts the
    last or the history is [generations] long. *)
Theorem default_history_until_stop (queue rest : draws)
        (history : list (list (individual T))) (fittest : member T) :
  GeneticDefault.geneticAlgorithm m o queue = Ok (record history fittest, rest) ->
  exists earlier,
    Forall (fun p => GeneticDefault.stop_condition m o (evaluated p) = Ok false)
           earlier /\
    ((history = earlier /\
      List.length history = Z.to_nat (GeneticDefault.generations o)) \/
     (exists last,
         history = earlier ++ [last] /\
         (List.length history <= Z.to_nat (GeneticDefault.generations o))%nat /\
         GeneticDefault.stop_condition m o (evaluated last) = Ok true)).
Proof.
  intro H.
  destruct (default_geneticAlgorithm_history _ _ _ H)
    as [pop [q0 [exit [q1 [f [_ [Loop E]]]]]]].
  injection E as -> _.
  pose proof (default_generations_loop_exit m o _ _ _ _ _ _ Loop) as X.
  destruct exit as [h last|h raw]; simpl in *.
  - destruct X as [earlier [-> [L [S F]]]].
    exists earlier. split; [exact F|]. right. exists last.
    rewrite length_app. simpl. repeat split; [lia|exact S].
  - destruct X as [added [-> [L F]]].
    exists added. split; [exact F|]. left. auto.
Qed.

(** X19: the default-exported [geneticAlgorithm] does not keep the
    population size either: the first population of the returned history
    has as many individuals as [creation_function] returned, whatever
    [population_size] is, and each next one has
    [Math.floor(size * reproduction_rate)] for the [size] of the one before. *)
Theorem default_history_sizes (queue rest : draws)
        (history : list (list (individual T))) (fittest : member T) :
  GeneticDefault.geneticAlgorithm m o queue = Ok (record history fittest, rest) ->
  exists pop q0,
    GeneticDefault.creation_function m (GeneticDefault.population_size o) queue
    = Ok (pop, q0) /\
    generation_sizes (List.length pop) (GeneticDefault.reproduction_rate o) history.
Proof.
  intro H.
  destruct (default_geneticAlgorithm_history _ _ _ H)
    as [pop [q0 [exit [q1 [f [Init [Loop E]]]]]]].
  injection E as -> _.
  destruct (default_generations_loop_sizes _ _ _ _ _ _ Loop) as [added [Eh S]].
  simpl in Eh. rewrite Eh. exists pop, q0. auto.
Qed.

(** X20: in the default-exported [geneticAlgorithm], a first generation
    that [stop_function] rejects and of which
    [Math.floor(size * survival_rate)] is 0 or 1 ends the run with the error
    of [crossover] (as long as [Math.random] has a draw to give and at
    least one generation is asked for). *)
Theorem default_small_pool_throws
        (queue q0 q1 q2 : draws) (pop : list T) (scored : list (individual T)) :
  (0 < GeneticDefault.generations o)%Z ->
  GeneticDefault.creation_function m (GeneticDefault.population_size o) queue
  = Ok (pop, q0) ->
  evaluateFitness pop (fun i (_ : unit) => GeneticDefault.fitness_function m i) tt q0
  = Ok (scored, q1) ->
  GeneticDefault.logging_function o [scored] q1 = Ok (tt, q2) ->
  GeneticDefault.stop_condition m o (evaluated scored) = Ok false ->
  (0 <= scaled_length scored (GeneticDefault.survival_rate o) < 2)%Z ->
  q2 <> [] ->
  GeneticDefault.geneticAlgorithm m o queue = Throw InsufficientPopulation.
Proof.
  intros G Init Evaluate Log Stop Few NE.
  assert (L : (scaled_length scored (GeneticDefault.survival_rate o)
               <= Z.of_nat (List.length scored))%Z).
  { destruct scored; [|simpl List.length; lia].
    unfold GeneticDefault.stop_condition in Stop.
    destruct (GeneticDefault.ascending o); discriminate Stop. }
  destruct (small_sample scored _ (Some (GeneticDefault.ascending o)) q2 Few L NE)
    as [sample [q3 [E Ls]]].
  unfold GeneticDefault.geneticAlgorithm. unfold bind at 1. rewrite Init.
  destruct (Z.to_nat (GeneticDefault.generations o)) as [|count] eqn:C; [lia|].
  unfold bind at 1. cbn [GeneticDefault.generations_loop].
  unfold bind at 1. rewrite Evaluate.
  unfold bind at 1. simpl app. rewrite Log.
  unfold bind at 1, lift. rewrite Stop.
  unfold bind at 1. rewrite E.
  unfold bind at 1.
  rewrite (crossover_insufficient_population_pool sample _ _ _ q3 Ls).
  reflexivity.
Qed.

End DefaultGenerations.


(** X18 on the example model, which stops at its first generation. *)
Lemma default_history_until_stop_witness :
  let generation := [Example.one 1; Example.one 1; Example.one 1; Example.one 1] in
  exists earlier,
    Forall (fun p => GeneticDefault.stop_condition
                       Example.ones_default Example.two_generations_default
                       (evaluated p) = Ok false)
           earlier /\
    (([generation] = earlier /\
      List.length [generation]
      = Z.to_nat (GeneticDefault.generations Example.two_generations_default)) \/
     (exists last,
         [generation] = earlier ++ [last] /\
         (List.length [generation]
          <= Z.to_nat (GeneticDefault.generations Example.two_generations_default))%nat /\
         GeneticDefault.stop_condition
           Example.ones_default Example.two_generations_default (evaluated last)
         = Ok true)).
Proof.
  apply (default_history_until_stop
           Example.ones_default Example.two_generations_default [] []
           [[Example.one 1; Example.one 1; Example.one 1; Example.one 1]]
           (Some (Example.one 1))).
  vm_compute. reflexivity.
Defined.

(** X19 with [reproduction_rate = 1.5]: four individuals, then six. *)
Lemma default_history_sizes_witness :
  exists pop q0,
    GeneticDefault.creation_function
      Example.never_stops (GeneticDefault.population_size Example.growing_default)
      Example.growing_draws
    = Ok (pop, q0) /\
    generation_sizes (List.length pop)
                     (GeneticDefault.reproduction_rate Example.growing_default)
                     [repeat (Example.one 1) 4; repeat (Example.one 1) 6].
Proof.
  apply (default_history_sizes
           Example.never_stops Example.growing_default Example.growing_draws []
           [repeat (Example.one 1) 4; repeat (Example.one 1) 6] None).
  vm_compute. reflexivity.
Defined.

(** X20 with the default rates on four individuals: no survivor. *)
Lemma default_small_pool_throws_witness :
  GeneticDefault.geneticAlgorithm Example.never_stops Example.four_default [1 # 2]
  = Throw InsufficientPopulation.
Proof.
  apply (default_small_pool_throws
           Example.never_stops Example.four_default
           [1 # 2] [1 # 2] [1 # 2] [1 # 2] [1; 1; 1; 1]%Z
           [Example.one 1; Example.one 1; Example.one 1; Example.one 1]).
  - simpl. lia.
  - reflexivity.
  - reflexivity.
  - reflexivity.
  - vm_compute. reflexivity.
  - vm_compute. split; [discriminate|reflexivity].
  - discriminate.
Defined.

(** ** The earlier draft and the current functions *)

Section LegacyTable.

Lemma legacy_reduce (todo done acc : list Q) :
  List.length acc = S (List.length done) ->
  (forall i c, nth_error acc i = Some c -> c == total (firstn i done)) ->
  let r := reduce_from
             (fun store current index =>
                store ++ [match get store index with
                          | Some previous => previous + current
                          | None => current
                          end])
             todo (Z.of_nat (List.length done)) acc in
  (exists more, r = acc ++ more /\ List.length more = List.length todo) /\
  forall i c, nth_error r i = Some c -> c == total (firstn i (done ++ todo)).
Proof.
  revert done acc. induction todo as [|x todo IH]; intros done acc L Inv; simpl.
  - rewrite app_nil_r. split; [|exact Inv].
    exists []. rewrite app_nil_r. auto.
  - rewrite get_of_nat.
    destruct (nth_error_defined acc (List.length done)) as [previous Np]; [lia|].
    rewrite Np.
    assert (Prev : previous == total done).
    { rewrite (Inv _ _ Np), firstn_all. reflexivity. }
    replace (Z.of_nat (List.length done) + 1)%Z
      with (Z.of_nat (List.length (done ++ [x])))
      by (rewrite length_app; simpl; lia).
    replace (done ++ x :: todo) with ((done ++ [x]) ++ todo)
      by (rewrite <- app_assoc; reflexivity).
    destruct (IH (done ++ [x]) (acc ++ [previous + x])) as [[more [E Lm]] Inv'].
    + rewrite !length_app. simpl. lia.
    + intros i c N.
      destruct (Nat.lt_ge_cases i (List.length acc)) as [Hi|Hi].
      * rewrite nth_error_app1 in N by exact Hi.
        rewrite (Inv i c N), firstn_app.
        replace (i - List.length done)%nat with O by lia.
        simpl. rewrite app_nil_r. reflexivity.
      * rewrite nth_error_app2 in N by exact Hi.
        destruct (i - List.length acc)%nat as [|d] eqn:D.
        -- simpl in N. injection N as <-.
           rewrite firstn_all2 by (rewrite length_app; simpl; lia).
           assert (One : total [x] == x) by (unfold total; simpl; lra).
           rewrite total_app, Prev, One. reflexivity.
        -- simpl in N. destruct d; discriminate.
    + split; [|exact Inv'].
      exists ((previous + x) :: more). rewrite E, <- app_assoc.
      split; [reflexivity|simpl; lia].
Qed.

(** The table of the earlier draft: the entry 0, then the sums of the
    first relative weights. *)
Lemma legacy_cumulative_sum (relative : list Q) :
  exists tail,
    Legacy.cumulative_sum relative = 0 :: tail /\
    List.length tail = List.length relative /\
    forall k c, nth_error tail k = Some c ->
                c == total (firstn (S k) relative).
Proof.
  unfold Legacy.cumulative_sum, reduce.
  destruct (legacy_reduce relative [] [0]) as [[more [E L]] Inv].
  - reflexivity.
  - intros [|[|i]] c N; simpl in N; try discriminate.
    injection N as <-. unfold total. simpl. reflexivity.
  - change (Z.of_nat (List.length (@nil Q))) with 0%Z in E, Inv.
    exists more. split; [exact E|]. split; [exact L|].
    intros k c N. apply (Inv (S k) c). rewrite E. exact N.
Qed.

Lemma pointwise_Forall2 (xs ys : list Q) :
  List.length xs = List.length ys ->
  (forall k a b, nth_error xs k = Some a -> nth_error ys k = Some b -> a == b) ->
  Forall2 Qeq xs ys.
Proof.
  revert ys. induction xs as [|x xs IH]; intros [|y ys] L H; simpl in L;
    try discriminate; constructor.
  - apply (H O); reflexivity.
  - apply IH; [lia|]. intros k a b Na Nb. apply (H (S k)); assumption.
Qed.

Lemma Qlt_bool_Qeq (r a b : Q) : a == b -> Qlt_bool r a = Qlt_bool r b.
Proof.
  intro E. destruct (Qlt_bool r a) eqn:A; destruct (Qlt_bool r b) eqn:B; trivial.
  - apply Qlt_bool_true in A. apply Qlt_bool_false in B. lra.
  - apply Qlt_bool_false in A. apply Qlt_bool_true in B. lra.
Qed.

Lemma findIndex_from_pointwise (r : Q) (xs ys : list Q) (i : Z) :
  Forall2 Qeq xs ys ->
  findIndex_from (fun f => Qlt_bool r f) xs i
  = findIndex_from (fun f => Qlt_bool r f) ys i.
Proof.
  intro H. revert i. induction H as [|x y xs ys E _ IH]; intro i; simpl.
  - reflexivity.
  - rewrite (Qlt_bool_Qeq r x y E), IH. reflexivity.
Qed.

Lemma findIndex_from_next {A : Type} (p : A -> bool) (array : list A) (i : Z) :
  existsb p array = true ->
  findIndex_from p array (i + 1) = (findIndex_from p array i + 1)%Z.
Proof.
  revert i. induction array as [|a array IH]; intros i H; simpl in *.
  - discriminate.
  - destruct (p a); [reflexivity|]. simpl in H. apply IH. exact H.
Qed.

(** Behind a leading 0, a draw selects the next position. *)
Lemma selected_behind_zero (tail current : list Q) (r : Q) (k : nat) :
  Forall2 Qeq tail current -> 0 <= r ->
  selected current r = Z.of_nat k ->
  selected (0 :: tail) r = (selected current r + 1)%Z.
Proof.
  intros E Hr Sel. unfold selected, findIndex in *. simpl.
  assert (Z0 : Qlt_bool r 0 = false) by (apply Qlt_bool_false; exact Hr).
  rewrite Z0, (findIndex_from_pointwise r tail current _ E).
  apply (findIndex_from_next (fun f => Qlt_bool r f) current 0%Z).
  destruct (existsb (fun f => Qlt_bool r f) current) eqn:Ex; [reflexivity|].
  rewrite (findIndex_from_none _ _ 0%Z Ex) in Sel. lia.
Qed.

Lemma includes_succ (indices : list Z) (i : Z) :
  includes (map Z.succ indices) (i + 1) = includes indices i.
Proof.
  unfold includes. induction indices as [|j indices IH]; simpl; [reflexivity|].
  rewrite IH. f_equal.
  destruct (Z.eqb_spec i j), (Z.eqb_spec (i + 1) (Z.succ j)); trivial; lia.
Qed.

(** Two tables on which every draw selects positions one apart make the
    [while] loop collect indices one apart. *)
Lemma randomUniqueIndices_loop_behind (behind current : list Q) (n : Z)
      (queue : draws) :
  Forall (fun r => selected behind r = (selected current r + 1)%Z) queue ->
  forall indices,
    randomUniqueIndices_loop behind n (map Z.succ indices) queue
    = match randomUniqueIndices_loop current n indices queue with
      | Ok (result, rest) => Ok (map Z.succ result, rest)
      | Throw e => Throw e
      | Starved => Starved
      end.
Proof.
  induction 1 as [|r queue Hr _ IH]; intro indices.
  - simpl. rewrite length_map.
    destruct (Z.of_nat (List.length indices) <? n)%Z; reflexivity.
  - cbn [randomUniqueIndices_loop]. rewrite length_map.
    destruct (Z.of_nat (List.length indices) <? n)%Z; [|reflexivity].
    fold (selected behind r). fold (selected current r).
    rewrite Hr, includes_succ.
    destruct (includes indices (selected current r)); simpl negb; cbv iota.
    + apply IH.
    + rewrite <- IH. rewrite map_app. reflexivity.
Qed.

End LegacyTable.

Section LegacyAgreement.

Context {T : Type}.

Lemma legacy_table_positive (pop : list (individual T)) :
  Forall (fun i => 0 < fitness i) pop ->
  exists tail,
    Legacy.relativeCumulativeFitness (evaluated pop) = Ok (0 :: tail) /\
    Forall2 Qeq tail (weights_of (map fitness pop) (Some true)).
Proof.
  intro P.
  assert (Pf : Forall (fun v => 0 < v) (map fitness pop)).
  { apply Forall_forall. intros v Hv. apply in_map_iff in Hv.
    destruct Hv as [i [<- Hi]]. rewrite Forall_forall in P. auto. }
  unfold Legacy.relativeCumulativeFitness. rewrite read_fitness_evaluated.
  destruct (legacy_cumulative_sum (normalize (map fitness pop)))
    as [tail [E [L Pre]]].
  exists tail. split; [rewrite E; reflexivity|].
  unfold weights_of.
  rewrite (shift_negative_positive _ Pf), (lift_zero_positive _ Pf).
  change (invert (Some true) (map fitness pop)) with (map fitness pop).
  destruct (cumulative_sum_prefix (normalize (map fitness pop))) as [Lc Prec].
  apply pointwise_Forall2; [lia|].
  intros k a b Na Nb. rewrite (Pre _ _ Na), (Prec _ _ Nb). reflexivity.
Qed.

(** X21: on positive fitness, the table of the earlier draft is the
    entry 0 followed by the table the current
    [relativeCumulativeFitness] computes with [ascending = true] (entry by
    entry, in exact arithmetic). *)
Theorem legacy_table_behind_zero (pop : list (individual T)) :
  Forall (fun i => 0 < fitness i) pop ->
  exists tail current,
    Legacy.relativeCumulativeFitness (evaluated pop) = Ok (0 :: tail) /\
    relativeCumulativeFitness (evaluated pop) (Some true) = Ok current /\
    Forall2 Qeq tail current.
Proof.
  intro P. destruct (legacy_table_positive pop P) as [tail [E F]].
  exists tail, (weights_of (map fitness pop) (Some true)).
  split; [exact E|]. split; [apply relativeCumulativeFitness_evaluated|exact F].
Qed.

(** X22: on positive fitness and draws in [0, 1), the
    [weightedSampleWithoutReplacement] of the earlier draft and the current
    one called with [ascending = true] do the same: the same sample and
    remaining draws, the same error, or the same wait for more draws. *)
Theorem legacy_sampler_agrees (pop : list (individual T)) (n : Z) (queue : draws) :
  Forall (fun i => 0 < fitness i) pop ->
  Forall unit_draw queue ->
  Legacy.weightedSampleWithoutReplacement (evaluated pop) n queue
  = weightedSampleWithoutReplacement (evaluated pop) n (Some true) queue.
Proof.
  intros P U.
  destruct (legacy_table_positive pop P) as [tail [E F]].
  pose proof (Forall2_length F) as Lt.
  rewrite weights_of_length, length_map in Lt.
  unfold Legacy.weightedSampleWithoutReplacement, weightedSampleWithoutReplacement.
  destruct (n >? Z.of_nat (List.length (evaluated pop)))%Z eqn:G; [reflexivity|].
  unfold evaluated in G. rewrite length_map in G.
  rewrite Z.gtb_ltb in G. apply Z.ltb_ge in G.
  unfold bind, lift. rewrite E, relativeCumulativeFitness_evaluated.
  unfold randomUniqueIndices.
  rewrite weights_of_length, length_map.
  change (List.length (0 :: tail)) with (S (List.length tail)). rewrite Lt.
  destruct (n <? 0)%Z eqn:G0; [reflexivity|]. apply Z.ltb_ge in G0.
  assert (G1 : (n >? Z.of_nat (S (List.length pop)))%Z = false).
  { rewrite Z.gtb_ltb. apply Z.ltb_ge. lia. }
  assert (G2 : (n >? Z.of_nat (List.length pop))%Z = false).
  { rewrite Z.gtb_ltb. apply Z.ltb_ge. lia. }
  rewrite G1, G2. change (false || false) with false. cbv iota.
  destruct pop as [|i pop'] eqn:Ep.
  - simpl in G. assert (n = 0%Z) by lia. subst n.
    rewrite !randomUniqueIndices_loop_draws. reflexivity.
  - rewrite <- Ep in *.
    assert (NE : map fitness pop <> []) by (rewrite Ep; discriminate).
    assert (B : Forall (fun r => selected (0 :: tail) r
                                 = (selected (weights_of (map fitness pop) (Some true)) r
                                    + 1)%Z) queue).
    { eapply Forall_impl; [|exact U]. intros r Ur.
      destruct (selected_in_range (map fitness pop) (Some true) r NE Ur)
        as [k [Sel _]].
      apply (selected_behind_zero _ _ r k F); [apply Ur|exact Sel]. }
    pose proof (randomUniqueIndices_loop_behind _ _ n queue B []) as R.
    simpl map in R. rewrite R. clear R.
    destruct (randomUniqueIndices_loop
                (weights_of (map fitness pop) (Some true)) n [] queue)
      as [[result rest]| |]; try reflexivity.
    unfold ret. rewrite map_map. f_equal. f_equal.
    apply map_ext. intro a. f_equal. lia.
Qed.

End LegacyAgreement.

Lemma legacy_table_behind_zero_witness :
  exists tail current,
    Legacy.relativeCumulativeFitness (evaluated Example.four) = Ok (0 :: tail) /\
    relativeCumulativeFitness (evaluated Example.four) (Some true) = Ok current /\
    Forall2 Qeq tail current.
Proof.
  apply (legacy_table_behind_zero Example.four).
  repeat constructor.
Defined.

Lemma legacy_sampler_agrees_witness :
  Legacy.weightedSampleWithoutReplacement
    (evaluated Example.four) 2 [1 # 100; 5 # 100; 38 # 100]
  = weightedSampleWithoutReplacement
      (evaluated Example.four) 2 (Some true) [1 # 100; 5 # 100; 38 # 100].
Proof.
  apply (legacy_sampler_agrees Example.four 2 [1 # 100; 5 # 100; 38 # 100]).
  - repeat constructor.
  - repeat constructor; unfold unit_draw; simpl; lra.
Defined.
